(** * The Langues metric: a shallow embedding of [langues_metric.py]

    The Python module computes with IEEE doubles.  The embedding has three
    layers.  The first reads every [float] as a real number of the Standard
    Library ([R]) and every operation of the [math] module as the real
    function of the same name: it is the exact arithmetic that the code
    follows wherever no intermediate result leaves the range of doubles,
    and it is used for the statements about such inputs.  Module [CPython]
    adds the [OverflowError] of [math.exp] to [compute].  Module [Float]
    models [compute], [compute_gradient] and [langues_distance] on doubles
    with their range: overflow to an infinity, underflow to zero, NaN, and
    the exceptions of [math.sin], [math.exp], [math.sqrt] and the power
    operator; rounding to 53 bits is not modelled.  Lists keep the order of
    the source, loops over [range(6)] are folds over [seq 0 6], and code
    that can raise returns in the [result] error type below. *)

From Stdlib Require Import Reals Lra Psatz List String Bool Arith Lia.
Import ListNotations.
Local Open Scope R_scope.

(** ** Python exceptions and the error type *)

Inductive PyExc : Set :=
| IndexError
| TypeError
| OverflowError
| ValueError.

Inductive result (A : Type) : Type :=
| Ok (v : A)
| Raise (e : PyExc).
Arguments Ok {A} v.
Arguments Raise {A} e.

Definition bind {A B : Type} (c : result A) (k : A -> result B) : result B :=
  match c with
  | Ok v => k v
  | Raise e => Raise e
  end.

Notation "x <- c ;; k" := (bind c (fun x => k))
  (at level 61, c at next level, right associativity).

(** [v[i]] on a Python list, for a non-negative index. *)
Definition getitem {A : Type} (v : list A) (i : nat) : result A :=
  match nth_error v i with
  | Some a => Ok a
  | None => Raise IndexError
  end.

(** [v[i] = a] on a Python list, for a non-negative index. *)
Fixpoint setitem {A : Type} (v : list A) (i : nat) (a : A) : result (list A) :=
  match v, i with
  | [], _ => Raise IndexError
  | _ :: v', O => Ok (a :: v')
  | b :: v', S i' => v'' <- setitem v' i' a ;; Ok (b :: v'')
  end.

(** ** Constants *)

Definition PHI : R := (1 + sqrt 5) / 2.
Definition TAU : R := 2 * PI.

Definition TONGUES : list string :=
  ["KO"; "AV"; "RU"; "CA"; "UM"; "DR"]%string.

Definition TONGUE_WEIGHTS : list R := map (fun k => PHI ^ k) (seq 0 6).

Definition TONGUE_PHASES : list R := map (fun k => TAU * INR k / 6) (seq 0 6).

Definition TONGUE_FREQUENCIES : list R :=
  [1; 9 / 8; 5 / 4; 4 / 3; 3 / 2; 5 / 3].

Definition DIMENSIONS : list string :=
  ["time"; "intent"; "policy"; "trust"; "risk"; "entropy"]%string.

(** ** Points and ideal states *)

Module HyperspacePoint.

Record t : Type := mk
  { time : R; intent : R; policy : R; trust : R; risk : R; entropy : R }.

(** The dataclass defaults. *)
Definition default : t := mk 0 0 0 0.8 0.1 0.1.

Definition to_vector (self : t) : list R :=
  [time self; intent self; policy self; trust self; risk self; entropy self].

(** The six subscripts are evaluated left to right, as keyword arguments
    are; the first one out of range raises. *)
Definition from_vector (v : list R) : result t :=
  v0 <- getitem v 0 ;;
  v1 <- getitem v 1 ;;
  v2 <- getitem v 2 ;;
  v3 <- getitem v 3 ;;
  v4 <- getitem v 4 ;;
  v5 <- getitem v 5 ;;
  Ok (mk v0 v1 v2 v3 v4 v5).

End HyperspacePoint.

Module IdealState.

Record t : Type := mk
  { time : R; intent : R; policy : R; trust : R; risk : R; entropy : R }.

Definition default : t := mk 0 0 0.5 0.9 0.1 0.2.

Definition to_vector (self : t) : list R :=
  [time self; intent self; policy self; trust self; risk self; entropy self].


End IdealState.

(** ** The metric *)

(** Truth value of an [Optional[List[str]]]: [None] and the empty list are
    both false. *)
Definition truthy (a : option (list string)) : bool :=
  match a with
  | None => false
  | Some [] => false
  | Some (_ :: _) => true
  end.

(** [tongue in active_tongues], evaluated only when the list is truthy. *)
Definition contains (tongue : string) (a : option (list string)) : bool :=
  match a with
  | None => false
  | Some ts => existsb (String.eqb tongue) ts
  end.

Module LanguesMetric.

Record t : Type := mk
  { beta_base : R;
    clamp_max : R;
    ideal : IdealState.t;
    betas : list R }.

(** [__init__]: [ideal or IdealState()] and the per-tongue growth rates. *)
Definition init (beta_base clamp_max : R) (ideal : option IdealState.t) : t :=
  mk beta_base clamp_max
     (match ideal with Some i => i | None => IdealState.default end)
     (map (fun phi => beta_base + 0.1 * cos phi) TONGUE_PHASES).

(** [LanguesMetric()] with every argument defaulted. *)
Definition default : t := init 1 1e6 None.


Definition compute_deviations (self : t) (x : HyperspacePoint.t) : list R :=
  let x_vec := HyperspacePoint.to_vector x in
  let mu_vec := IdealState.to_vector (ideal self) in
  map (fun l => Rabs (nth l x_vec 0 - nth l mu_vec 0)) (seq 0 6).

(** One turn of the loop of [compute]: the accumulator [L] is returned
    unchanged on [continue].  Every subscript [l] comes from [range(6)] and
    the tables, the deviations and the [betas] of a constructed metric have
    six entries, so the default of [nth] is never read. *)
Definition compute_body (self : t) (deviations : list R) (t : R)
    (active_tongues : option (list string)) (L : R) (l : nat) : R :=
  let tongue := nth l TONGUES EmptyString in
  if truthy active_tongues && negb (contains tongue active_tongues) then L
  else
    let w_l := nth l TONGUE_WEIGHTS 0 in
    let beta_l := nth l (betas self) 0 in
    let omega_l := nth l TONGUE_FREQUENCIES 0 in
    let phi_l := nth l TONGUE_PHASES 0 in
    let d_l := nth l deviations 0 in
    let phase_shift := sin (omega_l * t + phi_l) in
    let shifted_d := d_l + 0.1 * phase_shift in
    let exp_term := exp (beta_l * shifted_d) in
    L + w_l * exp_term.

Definition compute (self : t) (x : HyperspacePoint.t) (t : R)
    (active_tongues : option (list string)) : R :=
  let deviations := compute_deviations self x in
  let L := fold_left (compute_body self deviations t active_tongues)
                     (seq 0 6) 0 in
  Rmin L (clamp_max self).

(** [sum(TONGUE_WEIGHTS)]: left to right from [0]. *)
Definition L_base : R := fold_left Rplus TONGUE_WEIGHTS 0.

Definition risk_level (self : t) (L : R) : string * string :=
  if Rlt_dec L (L_base * 1.5) then ("LOW", "ALLOW")%string
  else if Rlt_dec L (L_base * 3.0) then ("MEDIUM", "QUARANTINE")%string
  else if Rlt_dec L (L_base * 10.0) then ("HIGH", "REVIEW")%string
  else ("CRITICAL", "DENY")%string.

End LanguesMetric.

(** ** Distance *)

(** One turn of the loop of [langues_distance] in exact arithmetic: the
    sum of the weighted squares so far.  The function itself is modelled
    on doubles, in module [Float]. *)
Definition langues_distance_body (v1 v2 : list R) (d_sq : R) (l : nat) : R :=
  let w_l := nth l TONGUE_WEIGHTS 0 in
  let diff := nth l v1 0 - nth l v2 0 in
  d_sq + w_l * diff ^ 2.

(** ** Self-check of monotonicity *)




(** ** The range of doubles in [math.exp]

    CPython's [math.exp] raises [OverflowError] when the result is too
    large for a double.  This module repeats [compute] with that check, the
    arithmetic staying exact: a result is representable when it does not
    exceed the largest finite double. *)

Module CPython.

Definition DBL_MAX : R := (2 ^ 53 - 1) * 2 ^ 971.

Definition math_exp (x : R) : result R :=
  if Rle_dec (exp x) DBL_MAX then Ok (exp x) else Raise OverflowError.

Fixpoint for_each {A B : Type} (body : A -> B -> result A) (items : list B)
    (acc : A) : result A :=
  match items with
  | [] => Ok acc
  | i :: items' => acc' <- body acc i ;; for_each body items' acc'
  end.

Definition compute_body (self : LanguesMetric.t) (deviations : list R) (t : R)
    (active_tongues : option (list string)) (L : R) (l : nat) : result R :=
  let tongue := nth l TONGUES EmptyString in
  if truthy active_tongues && negb (contains tongue active_tongues) then Ok L
  else
    let w_l := nth l TONGUE_WEIGHTS 0 in
    let beta_l := nth l (LanguesMetric.betas self) 0 in
    let omega_l := nth l TONGUE_FREQUENCIES 0 in
    let phi_l := nth l TONGUE_PHASES 0 in
    let d_l := nth l deviations 0 in
    let phase_shift := sin (omega_l * t + phi_l) in
    let shifted_d := d_l + 0.1 * phase_shift in
    exp_term <- math_exp (beta_l * shifted_d) ;;
    Ok (L + w_l * exp_term).

Definition compute (self : LanguesMetric.t) (x : HyperspacePoint.t) (t : R)
    (active_tongues : option (list string)) : result R :=
  let deviations := LanguesMetric.compute_deviations self x in
  L <- for_each (compute_body self deviations t active_tongues) (seq 0 6) 0 ;;
  Ok (Rmin L (LanguesMetric.clamp_max self)).

End CPython.

(** ** Doubles with their range

    The functions of the module once more, on values that keep what a caller
    of the Python code can observe of IEEE doubles besides rounding: a result
    above the largest double is an infinity, a result of at most half the
    smallest positive double is zero, infinities and NaN propagate, and
    [math.sin], [math.exp], [math.sqrt] and the power operator raise where
    CPython raises.  Inside the range a result is the exact real: rounding
    to 53 bits is not modelled.  The fields of points, ideal states and
    metrics are finite doubles. *)

Module Float.

Inductive float : Type :=
| Fin (r : R)
| PInf
| NInf
| NaN.

Definition DBL_MAX : R := CPython.DBL_MAX.

(** Half of the smallest positive double, [2 ^ -1074]. *)
Definition DBL_HALF_MIN : R := / 2 ^ 1075.

(** The double for an exact result [r]. *)
Definition to_double (r : R) : float :=
  if Rlt_dec DBL_MAX r then PInf
  else if Rlt_dec r (- DBL_MAX) then NInf
  else if Rle_dec (Rabs r) DBL_HALF_MIN then Fin 0
  else Fin r.

Definition neg (x : float) : float :=
  match x with
  | Fin r => Fin (- r)
  | PInf => NInf
  | NInf => PInf
  | NaN => NaN
  end.

(** The builtin [abs]. *)
Definition abs (x : float) : float :=
  match x with
  | Fin r => Fin (Rabs r)
  | PInf => PInf
  | NInf => PInf
  | NaN => NaN
  end.

Definition add (x y : float) : float :=
  match x, y with
  | NaN, _ => NaN
  | _, NaN => NaN
  | Fin a, Fin b => to_double (a + b)
  | PInf, NInf => NaN
  | NInf, PInf => NaN
  | PInf, _ => PInf
  | _, PInf => PInf
  | NInf, _ => NInf
  | _, NInf => NInf
  end.

Definition sub (x y : float) : float := add x (neg y).

(** An infinity times the finite [a]. *)
Definition scale_inf (inf : float) (a : R) : float :=
  if Req_dec_T a 0 then NaN
  else if Rlt_dec 0 a then inf else neg inf.

Definition mul (x y : float) : float :=
  match x, y with
  | NaN, _ => NaN
  | _, NaN => NaN
  | Fin a, Fin b => to_double (a * b)
  | Fin a, PInf => scale_inf PInf a
  | Fin a, NInf => scale_inf NInf a
  | PInf, Fin b => scale_inf PInf b
  | NInf, Fin b => scale_inf NInf b
  | PInf, PInf => PInf
  | NInf, NInf => PInf
  | PInf, NInf => NInf
  | NInf, PInf => NInf
  end.

(** [x < y]: false as soon as one side is NaN. *)
Definition ltb (x y : float) : bool :=
  match x, y with
  | NaN, _ => false
  | _, NaN => false
  | Fin a, Fin b => if Rlt_dec a b then true else false
  | NInf, NInf => false
  | NInf, _ => true
  | PInf, _ => false
  | Fin _, PInf => true
  | Fin _, NInf => false
  end.

(** [x >= y]: false as soon as one side is NaN. *)
Definition geb (x y : float) : bool :=
  match x, y with
  | NaN, _ => false
  | _, NaN => false
  | _, _ => negb (ltb x y)
  end.

(** The builtin [min(x, y)]: [y] when [y < x], else [x]. *)
Definition min (x y : float) : float := if ltb y x then y else x.

(** [math.sin]: a domain error on an infinity. *)
Definition math_sin (x : float) : result float :=
  match x with
  | Fin r => Ok (Fin (sin r))
  | NaN => Ok NaN
  | PInf => Raise ValueError
  | NInf => Raise ValueError
  end.

(** [math.exp]: a range error when a finite argument gives a result above
    the largest double; underflow is silent. *)
Definition math_exp (x : float) : result float :=
  match x with
  | Fin r =>
      if Rlt_dec DBL_MAX (exp r) then Raise OverflowError
      else Ok (to_double (exp r))
  | PInf => Ok PInf
  | NInf => Ok (Fin 0)
  | NaN => Ok NaN
  end.

(** [x ** 2]: a range error when a finite [x] has a square above the
    largest double; underflow is silent. *)
Definition pow2 (x : float) : result float :=
  match x with
  | Fin r =>
      if Rlt_dec DBL_MAX (r * r) then Raise OverflowError
      else Ok (to_double (r * r))
  | PInf => Ok PInf
  | NInf => Ok PInf
  | NaN => Ok NaN
  end.

(** [math.sqrt]: a domain error below zero. *)
Definition math_sqrt (x : float) : result float :=
  match x with
  | Fin r => if Rlt_dec r 0 then Raise ValueError else Ok (Fin (sqrt r))
  | PInf => Ok PInf
  | NInf => Raise ValueError
  | NaN => Ok NaN
  end.

Definition compute_deviations (self : LanguesMetric.t) (x : HyperspacePoint.t)
    : list float :=
  let x_vec := HyperspacePoint.to_vector x in
  let mu_vec := IdealState.to_vector (LanguesMetric.ideal self) in
  map (fun l => abs (sub (Fin (nth l x_vec 0)) (Fin (nth l mu_vec 0))))
      (seq 0 6).

Definition compute_body (self : LanguesMetric.t) (deviations : list float)
    (t : R) (active_tongues : option (list string)) (L : float) (l : nat)
    : result float :=
  let tongue := nth l TONGUES EmptyString in
  if truthy active_tongues && negb (contains tongue active_tongues) then Ok L
  else
    let w_l := Fin (nth l TONGUE_WEIGHTS 0) in
    let beta_l := Fin (nth l (LanguesMetric.betas self) 0) in
    let omega_l := Fin (nth l TONGUE_FREQUENCIES 0) in
    let phi_l := Fin (nth l TONGUE_PHASES 0) in
    let d_l := nth l deviations (Fin 0) in
    phase_shift <- math_sin (add (mul omega_l (Fin t)) phi_l) ;;
    let shifted_d := add d_l (mul (Fin 0.1) phase_shift) in
    exp_term <- math_exp (mul beta_l shifted_d) ;;
    Ok (add L (mul w_l exp_term)).

Definition compute (self : LanguesMetric.t) (x : HyperspacePoint.t) (t : R)
    (active_tongues : option (list string)) : result float :=
  let deviations := compute_deviations self x in
  L <- CPython.for_each (compute_body self deviations t active_tongues)
         (seq 0 6) (Fin 0) ;;
  Ok (min L (Fin (LanguesMetric.clamp_max self))).

Definition gradient_body (self : LanguesMetric.t) (deviations : list float)
    (x_vec mu_vec : list R) (t : R) (grad : list float) (l : nat)
    : result (list float) :=
  let w_l := Fin (nth l TONGUE_WEIGHTS 0) in
  let beta_l := Fin (nth l (LanguesMetric.betas self) 0) in
  let omega_l := Fin (nth l TONGUE_FREQUENCIES 0) in
  let phi_l := Fin (nth l TONGUE_PHASES 0) in
  let d_l := nth l deviations (Fin 0) in
  phase_shift <- math_sin (add (mul omega_l (Fin t)) phi_l) ;;
  let shifted_d := add d_l (mul (Fin 0.1) phase_shift) in
  let sign :=
    if geb (Fin (nth l x_vec 0)) (Fin (nth l mu_vec 0))
    then Fin 1 else Fin (-1) in
  exp_term <- math_exp (mul beta_l shifted_d) ;;
  let grad_l := mul (mul (mul w_l beta_l) exp_term) sign in
  Ok (grad ++ [grad_l]).

Definition compute_gradient (self : LanguesMetric.t) (x : HyperspacePoint.t)
    (t : R) : result (list float) :=
  let deviations := compute_deviations self x in
  let x_vec := HyperspacePoint.to_vector x in
  let mu_vec := IdealState.to_vector (LanguesMetric.ideal self) in
  CPython.for_each (gradient_body self deviations x_vec mu_vec t) (seq 0 6) [].

Definition langues_distance_body (v1 v2 : list R) (d_sq : float) (l : nat)
    : result float :=
  let w_l := Fin (nth l TONGUE_WEIGHTS 0) in
  let diff := sub (Fin (nth l v1 0)) (Fin (nth l v2 0)) in
  sq <- pow2 diff ;;
  Ok (add d_sq (mul w_l sq)).

Definition langues_distance (x1 x2 : HyperspacePoint.t)
    (metric : option LanguesMetric.t) : result float :=
  let v1 := HyperspacePoint.to_vector x1 in
  let v2 := HyperspacePoint.to_vector x2 in
  d_sq <- CPython.for_each (langues_distance_body v1 v2) (seq 0 6) (Fin 0) ;;
  math_sqrt d_sq.

End Float.

(** ** The metric tensor *)

(** One turn of the loop of [build_langues_metric_matrix]: the assignment
    [G[i][i] = TONGUE_WEIGHTS[i]].  The rows come from a list comprehension
    and are six distinct lists, so writing into row [i] leaves the other
    rows as they are. *)
Definition matrix_body (G : list (list R)) (i : nat) : result (list (list R)) :=
  row <- getitem G i ;;
  row' <- setitem row i (nth i TONGUE_WEIGHTS 0) ;;
  setitem G i row'.

Definition build_langues_metric_matrix : result (list (list R)) :=
  let G := map (fun _ => repeat 0 6) (seq 0 6) in
  CPython.for_each matrix_body (seq 0 6) G.

(** ** The self-checks of the constant tables *)

(** The inner loop of [verify_phase_bounded] at time [t] over the remaining
    dimensions: [false] is the early [return False]. *)
Fixpoint verify_phase_bounded_dims (t : nat) (ls : list nat) : bool :=
  match ls with
  | [] => true
  | l :: ls' =>
      let omega_l := nth l TONGUE_FREQUENCIES 0 in
      let phi_l := nth l TONGUE_PHASES 0 in
      let phase := sin (omega_l * INR t + phi_l) in
      if Rgt_dec (Rabs phase) (1.0 + 1e-10) then false
      else verify_phase_bounded_dims t ls'
  end.

(** The outer loop over the remaining times. *)
Fixpoint verify_phase_bounded_times (ts : list nat) : bool :=
  match ts with
  | [] => true
  | t :: ts' =>
      if verify_phase_bounded_dims t (seq 0 6)
      then verify_phase_bounded_times ts' else false
  end.

Definition verify_phase_bounded : bool :=
  verify_phase_bounded_times (seq 0 1000).

(** The loop of [verify_tongue_weights] over the remaining indices.  The
    divisor is a weight, a power of [PHI], and is never [0]. *)
Fixpoint verify_tongue_weights_from (ls : list nat) : bool :=
  match ls with
  | [] => true
  | l :: ls' =>
      let ratio := nth (l + 1) TONGUE_WEIGHTS 0 / nth l TONGUE_WEIGHTS 0 in
      if Rgt_dec (Rabs (ratio - PHI)) 1e-10 then false
      else verify_tongue_weights_from ls'
  end.

Definition verify_tongue_weights : bool :=
  verify_tongue_weights_from (seq 0 5).

(** The loop of [verify_six_fold_symmetry] over the remaining indices. *)
Fixpoint verify_six_fold_symmetry_from (expected_diff : R) (ls : list nat)
    : bool :=
  match ls with
  | [] => true
  | l :: ls' =>
      let diff := nth (l + 1) TONGUE_PHASES 0 - nth l TONGUE_PHASES 0 in
      if Rgt_dec (Rabs (diff - expected_diff)) 1e-10 then false
      else verify_six_fold_symmetry_from expected_diff ls'
  end.

Definition verify_six_fold_symmetry : bool :=
  let expected_diff := TAU / 6 in
  verify_six_fold_symmetry_from expected_diff (seq 0 5).

(** ** The specification's formulas *)

(** A dimension is excluded when a tongue list is given, is not empty, and
    does not name the dimension's tongue. *)
Definition excluded (active_tongues : option (list string)) (l : nat) : bool :=
  match active_tongues with
  | None => false
  | Some [] => false
  | Some ts => negb (existsb (String.eqb (nth l TONGUES EmptyString)) ts)
  end.

Definition spec_beta (beta_base : R) (l : nat) : R :=
  beta_base + 0.1 * cos (nth l TONGUE_PHASES 0).

Definition spec_shifted_d (ideal : IdealState.t) (x : HyperspacePoint.t)
    (t : R) (l : nat) : R :=
  Rabs (nth l (HyperspacePoint.to_vector x) 0
        - nth l (IdealState.to_vector ideal) 0)
  + 0.1 * sin (nth l TONGUE_FREQUENCIES 0 * t + nth l TONGUE_PHASES 0).

Definition spec_term (beta_base : R) (ideal : IdealState.t)
    (x : HyperspacePoint.t) (t : R) (l : nat) : R :=
  nth l TONGUE_WEIGHTS 0
  * exp (spec_beta beta_base l * spec_shifted_d ideal x t l).

(** Sum of [f] over a list of dimensions. *)
Definition sum_over (f : nat -> R) (ls : list nat) : R :=
  fold_right (fun l acc => f l + acc) 0 ls.

(** The summand of [compute] for an arbitrary metric object, whose [betas]
    attribute is read as it is. *)
Definition metric_term (m : LanguesMetric.t) (x : HyperspacePoint.t) (t : R)
    (l : nat) : R :=
  nth l TONGUE_WEIGHTS 0
  * exp (nth l (LanguesMetric.betas m) 0
         * spec_shifted_d (LanguesMetric.ideal m) x t l).

(** ** Auxiliary definitions

    Points, deviations and forms that the statements below refer to. *)

(** The deviation of [x] from the ideal of [m] in dimension [l], as
    [compute_deviations] stores it. *)
Definition dev (m : LanguesMetric.t) (x : HyperspacePoint.t) (l : nat) : R :=
  Rabs (nth l (HyperspacePoint.to_vector x) 0
        - nth l (IdealState.to_vector (LanguesMetric.ideal m)) 0).

(** The point whose six fields are those of the default ideal state. *)
Definition ideal_point : HyperspacePoint.t :=
  HyperspacePoint.mk 0 0 0.5 0.9 0.1 0.2.

(** The test point of [verify_monotonicity]: the ideal point with [delta]
    added to coordinate [dim]. *)
Definition bump (dim : nat) (delta : R) : HyperspacePoint.t :=
  match dim with
  | 0%nat => HyperspacePoint.mk (0 + delta) 0 0.5 0.9 0.1 0.2
  | 1%nat => HyperspacePoint.mk 0 (0 + delta) 0.5 0.9 0.1 0.2
  | 2%nat => HyperspacePoint.mk 0 0 (0.5 + delta) 0.9 0.1 0.2
  | 3%nat => HyperspacePoint.mk 0 0 0.5 (0.9 + delta) 0.1 0.2
  | 4%nat => HyperspacePoint.mk 0 0 0.5 0.9 (0.1 + delta) 0.2
  | _ => HyperspacePoint.mk 0 0 0.5 0.9 0.1 (0.2 + delta)
  end.


(** The high-deviation point of the demonstration. *)
Definition attack_point : HyperspacePoint.t :=
  HyperspacePoint.mk 0 1.5 0.1 0.2 0.9 0.8.

(** The diagonal matrix of the tongue weights. *)
Definition diagonal_weights : list (list R) :=
  map (fun i => map (fun j => if Nat.eqb i j then PHI ^ i else 0) (seq 0 6))
      (seq 0 6).

(** Coordinate [l] of a point and of an ideal state, read off the named
    fields in the canonical order time, intent, policy, trust, risk,
    entropy. *)
Definition coordinate (x : HyperspacePoint.t) (l : nat) : R :=
  match l with
  | 0%nat => HyperspacePoint.time x
  | 1%nat => HyperspacePoint.intent x
  | 2%nat => HyperspacePoint.policy x
  | 3%nat => HyperspacePoint.trust x
  | 4%nat => HyperspacePoint.risk x
  | _ => HyperspacePoint.entropy x
  end.

Definition ideal_coordinate (i : IdealState.t) (l : nat) : R :=
  match l with
  | 0%nat => IdealState.time i
  | 1%nat => IdealState.intent i
  | 2%nat => IdealState.policy i
  | 3%nat => IdealState.trust i
  | 4%nat => IdealState.risk i
  | _ => IdealState.entropy i
  end.

(** The value that C1 states for [compute], with the coordinates read off
    the fields. *)
Definition claimed_term (beta_base : R) (ideal : IdealState.t)
    (x : HyperspacePoint.t) (t : R) (l : nat) : R :=
  nth l TONGUE_WEIGHTS 0
  * exp ((beta_base + 0.1 * cos (nth l TONGUE_PHASES 0))
         * (Rabs (coordinate x l - ideal_coordinate ideal l)
            + 0.1 * sin (nth l TONGUE_FREQUENCIES 0 * t
                         + nth l TONGUE_PHASES 0))).

Definition claimed_compute (beta_base clamp_max : R) (ideal : IdealState.t)
    (x : HyperspacePoint.t) (t : R) (active_tongues : option (list string))
    : R :=
  Rmin (sum_over (claimed_term beta_base ideal x t)
          (filter (fun l => negb (excluded active_tongues l)) (seq 0 6)))
       clamp_max.

(** The phase term, the shifted deviation and the gradient entry of
    dimension [l] in the specification's words, evaluated on doubles. *)
Definition double_phase_shift (t : R) (l : nat) : result Float.float :=
  Float.math_sin
    (Float.add
       (Float.mul (Float.Fin (nth l TONGUE_FREQUENCIES 0)) (Float.Fin t))
       (Float.Fin (nth l TONGUE_PHASES 0))).

Definition double_shifted_d (ideal : IdealState.t) (x : HyperspacePoint.t)
    (l : nat) (phase_shift : Float.float) : Float.float :=
  Float.add
    (Float.abs (Float.sub (Float.Fin (coordinate x l))
                  (Float.Fin (ideal_coordinate ideal l))))
    (Float.mul (Float.Fin 0.1) phase_shift).

Definition double_exp_term (beta_base : R) (ideal : IdealState.t)
    (x : HyperspacePoint.t) (t : R) (l : nat) : result Float.float :=
  phase_shift <- double_phase_shift t l ;;
  Float.math_exp
    (Float.mul (Float.Fin (spec_beta beta_base l))
       (double_shifted_d ideal x l phase_shift)).

Definition double_sign (ideal : IdealState.t) (x : HyperspacePoint.t)
    (l : nat) : Float.float :=
  if Rge_dec (coordinate x l) (ideal_coordinate ideal l)
  then Float.Fin 1 else Float.Fin (-1).

Definition double_gradient_entry (beta_base : R) (ideal : IdealState.t)
    (x : HyperspacePoint.t) (t : R) (l : nat) : result Float.float :=
  exp_term <- double_exp_term beta_base ideal x t l ;;
  Ok (Float.mul
        (Float.mul
           (Float.mul (Float.Fin (nth l TONGUE_WEIGHTS 0))
              (Float.Fin (spec_beta beta_base l)))
           exp_term)
        (double_sign ideal x l)).

(** The order of doubles, NaN being comparable to nothing, and the doubles
    that are zero, positive or the positive infinity. *)
Definition double_le (x y : Float.float) : Prop :=
  match x, y with
  | Float.NaN, _ => False
  | _, Float.NaN => False
  | Float.NInf, _ => True
  | _, Float.PInf => True
  | Float.Fin a, Float.Fin b => a <= b
  | Float.PInf, _ => False
  | Float.Fin _, Float.NInf => False
  end.

Definition double_nonneg (x : Float.float) : Prop :=
  match x with
  | Float.Fin r => 0 <= r
  | Float.PInf => True
  | Float.NInf => False
  | Float.NaN => False
  end.

(** Two results compare when both are values: an exception on either side
    leaves nothing to compare. *)
Definition returned_le (rx ry : result Float.float) : Prop :=
  match rx, ry with
  | Ok vx, Ok vy => double_le vx vy
  | _, _ => True
  end.

(** A real that a double holds as it is: zero, or of a magnitude between
    the underflow and the overflow thresholds. *)
Definition normal (r : R) : Prop :=
  r = 0 \/ (Float.DBL_HALF_MIN < Rabs r /\ Rabs r <= Float.DBL_MAX).

(** Every intermediate result of dimension [l] in [compute] is held as it
    is, and the exponential is in range. *)
Definition exact_dimension (m : LanguesMetric.t) (x : HyperspacePoint.t)
    (t : R) (l : nat) : Prop :=
  let d := coordinate x l - ideal_coordinate (LanguesMetric.ideal m) l in
  let arg := nth l TONGUE_FREQUENCIES 0 * t + nth l TONGUE_PHASES 0 in
  let shifted := Rabs d + 0.1 * sin arg in
  let e := exp (nth l (LanguesMetric.betas m) 0 * shifted) in
  normal d
  /\ normal (nth l TONGUE_FREQUENCIES 0 * t)
  /\ normal arg
  /\ normal (0.1 * sin arg)
  /\ normal shifted
  /\ normal (nth l (LanguesMetric.betas m) 0 * shifted)
  /\ Float.DBL_HALF_MIN < e <= Float.DBL_MAX
  /\ Float.DBL_HALF_MIN < nth l TONGUE_WEIGHTS 0 * e.

(** One turn of the loop of [compute] in the specification's words,
    evaluated on doubles: a skipped dimension leaves the sum as it is. *)
Definition double_step (beta_base : R) (ideal : IdealState.t)
    (x : HyperspacePoint.t) (t : R) (active_tongues : option (list string))
    (L : Float.float) (l : nat) : result Float.float :=
  if excluded active_tongues l then Ok L
  else
    exp_term <- double_exp_term beta_base ideal x t l ;;
    Ok (Float.add L (Float.mul (Float.Fin (nth l TONGUE_WEIGHTS 0)) exp_term)).

(** * Properties *)

(** ** Table look-ups *)

Lemma lt6_cases (l : nat) :
  (l < 6)%nat -> l = 0%nat \/ l = 1%nat \/ l = 2%nat \/ l = 3%nat
                 \/ l = 4%nat \/ l = 5%nat.
Proof. lia. Qed.

Ltac each_dim H :=
  destruct (lt6_cases _ H) as [-> | [-> | [-> | [-> | [-> | ->]]]]].

Lemma weight_nth (l : nat) :
  (l < 6)%nat -> nth l TONGUE_WEIGHTS 0 = PHI ^ l.
Proof. intros H. each_dim H; reflexivity. Qed.

Lemma betas_nth (beta_base clamp_max : R) (ideal : option IdealState.t)
    (l : nat) :
  (l < 6)%nat ->
  nth l (LanguesMetric.betas (LanguesMetric.init beta_base clamp_max ideal)) 0
  = spec_beta beta_base l.
Proof. intros H. each_dim H; reflexivity. Qed.

Lemma deviations_nth (m : LanguesMetric.t) (x : HyperspacePoint.t) (l : nat) :
  (l < 6)%nat ->
  nth l (LanguesMetric.compute_deviations m x) 0
  = Rabs (nth l (HyperspacePoint.to_vector x) 0
          - nth l (IdealState.to_vector (LanguesMetric.ideal m)) 0).
Proof. intros H. each_dim H; reflexivity. Qed.

Lemma skip_is_excluded (a : option (list string)) (l : nat) :
  truthy a && negb (contains (nth l TONGUES EmptyString) a) = excluded a l.
Proof. destruct a as [[| s ts] |]; reflexivity. Qed.

(** ** The loop of [compute] as a sum *)

Lemma range6 : Forall (fun l => (l < 6)%nat) (seq 0 6).
Proof. repeat constructor. Qed.

Section ComputeAsSum.

Variables (m : LanguesMetric.t) (x : HyperspacePoint.t) (t : R).
Variable a : option (list string).

Lemma compute_body_spec (L : R) (l : nat) :
  (l < 6)%nat ->
  LanguesMetric.compute_body m (LanguesMetric.compute_deviations m x) t a L l
  = if excluded a l then L else L + metric_term m x t l.
Proof.
  intros H. unfold LanguesMetric.compute_body.
  rewrite skip_is_excluded. destruct (excluded a l); [reflexivity |].
  cbv zeta. rewrite deviations_nth by assumption. reflexivity.
Qed.

Lemma compute_loop_spec (ls : list nat) :
  Forall (fun l => (l < 6)%nat) ls ->
  forall L,
    fold_left
      (LanguesMetric.compute_body m (LanguesMetric.compute_deviations m x) t a)
      ls L
    = L + sum_over (metric_term m x t)
            (filter (fun l => negb (excluded a l)) ls).
Proof.
  induction 1 as [| l ls Hl _ IH]; intros L; simpl.
  - ring.
  - rewrite IH, compute_body_spec by assumption.
    destruct (excluded a l); simpl; ring.
Qed.

Lemma compute_as_sum :
  LanguesMetric.compute m x t a
  = Rmin (sum_over (metric_term m x t)
            (filter (fun l => negb (excluded a l)) (seq 0 6)))
         (LanguesMetric.clamp_max m).
Proof.
  unfold LanguesMetric.compute.
  rewrite compute_loop_spec by apply range6.
  rewrite Rplus_0_l. reflexivity.
Qed.

End ComputeAsSum.

Lemma sum_over_ext (f g : nat -> R) (ls : list nat) :
  Forall (fun l => f l = g l) ls -> sum_over f ls = sum_over g ls.
Proof. induction 1 as [| l ls Hl _ IH]; simpl; congruence. Qed.

Lemma metric_term_init (beta_base clamp_max : R)
    (ideal : option IdealState.t) (x : HyperspacePoint.t) (t : R) (l : nat) :
  (l < 6)%nat ->
  let m := LanguesMetric.init beta_base clamp_max ideal in
  metric_term m x t l = spec_term beta_base (LanguesMetric.ideal m) x t l.
Proof.
  intros H m. unfold metric_term, spec_term, m.
  rewrite betas_nth by assumption. reflexivity.
Qed.

(** ** The golden-ratio weights *)

Lemma sqrt5_bounds : 2.236 < sqrt 5 < 2.2361.
Proof.
  assert (H5 : 0 <= 5) by lra.
  pose proof (sqrt_sqrt 5 H5) as Hs. pose proof (sqrt_pos 5) as Hp.
  split; nra.
Qed.

Lemma PHI_bounds : 1.618 < PHI < 1.61805.
Proof. unfold PHI. pose proof sqrt5_bounds. lra. Qed.

Lemma PHI_sqr : PHI * PHI = PHI + 1.
Proof.
  unfold PHI. assert (H5 : 0 <= 5) by lra.
  pose proof (sqrt_sqrt 5 H5) as Hs. nra.
Qed.

Lemma PHI_pow2 : PHI ^ 2 = PHI + 1.
Proof. simpl. rewrite Rmult_1_r. apply PHI_sqr. Qed.

Lemma PHI_pow3 : PHI ^ 3 = 2 * PHI + 1.
Proof. change (PHI ^ 3) with (PHI * PHI ^ 2). rewrite PHI_pow2.
  pose proof PHI_sqr. nra. Qed.

Lemma PHI_pow4 : PHI ^ 4 = 3 * PHI + 2.
Proof. change (PHI ^ 4) with (PHI * PHI ^ 3). rewrite PHI_pow3.
  pose proof PHI_sqr. nra. Qed.

Lemma PHI_pow5 : PHI ^ 5 = 5 * PHI + 3.
Proof. change (PHI ^ 5) with (PHI * PHI ^ 4). rewrite PHI_pow4.
  pose proof PHI_sqr. nra. Qed.

Lemma weight_pos (l : nat) : (l < 6)%nat -> 0 < nth l TONGUE_WEIGHTS 0.
Proof.
  intros H. rewrite weight_nth by assumption.
  apply pow_lt. pose proof PHI_bounds. lra.
Qed.

Lemma L_base_sum :
  LanguesMetric.L_base
  = PHI ^ 0 + PHI ^ 1 + PHI ^ 2 + PHI ^ 3 + PHI ^ 4 + PHI ^ 5.
Proof. unfold LanguesMetric.L_base. cbn [TONGUE_WEIGHTS map seq fold_left]. ring. Qed.

Lemma L_base_linear : LanguesMetric.L_base = 12 * PHI + 8.
Proof.
  rewrite L_base_sum, PHI_pow2, PHI_pow3, PHI_pow4, PHI_pow5.
  rewrite pow_O, pow_1. ring.
Qed.

Lemma L_base_bounds : 27.416 < LanguesMetric.L_base < 27.4166.
Proof. rewrite L_base_linear. pose proof PHI_bounds. lra. Qed.

Lemma metric_term_pos (m : LanguesMetric.t) (x : HyperspacePoint.t) (t : R)
    (l : nat) :
  (l < 6)%nat -> 0 < metric_term m x t l.
Proof.
  intros H. unfold metric_term.
  apply Rmult_lt_0_compat; [apply weight_pos; assumption | apply exp_pos].
Qed.

Lemma sum_over_nonneg (f : nat -> R) (ls : list nat) :
  Forall (fun l => 0 < f l) ls -> 0 <= sum_over f ls.
Proof. induction 1 as [| l ls Hl _ IH]; simpl; lra. Qed.


(** ** Risk bands *)

(** C4. [risk_level] is the four-band classification against
    [L_base], the sum of the six weights: LOW/ALLOW exactly below
    [1.5 * L_base], MEDIUM/QUARANTINE exactly on [[1.5 * L_base,
    3 * L_base)], HIGH/REVIEW exactly on [[3 * L_base, 10 * L_base)],
    CRITICAL/DENY exactly from [10 * L_base] on; a boundary value belongs
    to the higher band. *)
Theorem risk_level_bands (m : LanguesMetric.t) (L : R) :
  let L_base := PHI ^ 0 + PHI ^ 1 + PHI ^ 2 + PHI ^ 3 + PHI ^ 4 + PHI ^ 5 in
  (LanguesMetric.risk_level m L = ("LOW", "ALLOW")%string
   <-> L < 1.5 * L_base)
  /\ (LanguesMetric.risk_level m L = ("MEDIUM", "QUARANTINE")%string
      <-> 1.5 * L_base <= L < 3 * L_base)
  /\ (LanguesMetric.risk_level m L = ("HIGH", "REVIEW")%string
      <-> 3 * L_base <= L < 10 * L_base)
  /\ (LanguesMetric.risk_level m L = ("CRITICAL", "DENY")%string
      <-> 10 * L_base <= L).
Proof.
  intros L_base. unfold L_base. rewrite <- L_base_sum.
  pose proof L_base_bounds as Hb. unfold LanguesMetric.risk_level.
  destruct (Rlt_dec L (LanguesMetric.L_base * 1.5));
    [| destruct (Rlt_dec L (LanguesMetric.L_base * 3.0));
       [| destruct (Rlt_dec L (LanguesMetric.L_base * 10.0))]];
    repeat split; intros; try discriminate; try reflexivity; try lra.
Qed.

(** ** Conversion from a vector *)

(** [from_vector] raises [IndexError] on every vector shorter than six. *)
Lemma from_vector_short (v : list R) :
  (List.length v < 6)%nat -> HyperspacePoint.from_vector v = Raise IndexError.
Proof.
  intros H.
  destruct v as [| v0 [| v1 [| v2 [| v3 [| v4 [| v5 v']]]]]];
    try reflexivity.
  simpl in H. lia.
Qed.

(** [from_vector] returns on every vector of six entries or more, reading
    the first six. *)
Lemma from_vector_long (v : list R) :
  (6 <= List.length v)%nat ->
  HyperspacePoint.from_vector v
  = Ok (HyperspacePoint.mk (nth 0 v 0) (nth 1 v 0) (nth 2 v 0) (nth 3 v 0)
          (nth 4 v 0) (nth 5 v 0)).
Proof.
  intros H.
  destruct v as [| v0 [| v1 [| v2 [| v3 [| v4 [| v5 v']]]]]];
    simpl in H; try lia.
  reflexivity.
Qed.

(** C8, as stated, fails: a vector of seven entries is accepted. *)
Lemma from_vector_accepts_length_7 :
  List.length [1; 2; 3; 4; 5; 6; 7] <> 6%nat
  /\ HyperspacePoint.from_vector [1; 2; 3; 4; 5; 6; 7]
     = Ok (HyperspacePoint.mk 1 2 3 4 5 6).
Proof. split; [simpl; lia | reflexivity]. Qed.

(** C8, amended. [from_vector] raises [IndexError] exactly on the vectors
    shorter than six; on every vector of six entries or more it returns the
    point made of the first six, so every vector of length six is accepted
    and longer ones are too. *)
Theorem from_vector_length (v : list R) :
  ((List.length v < 6)%nat <-> HyperspacePoint.from_vector v = Raise IndexError)
  /\ ((6 <= List.length v)%nat <->
      HyperspacePoint.from_vector v
      = Ok (HyperspacePoint.mk (nth 0 v 0) (nth 1 v 0) (nth 2 v 0)
              (nth 3 v 0) (nth 4 v 0) (nth 5 v 0))).
Proof.
  split; split.
  - apply from_vector_short.
  - intros E. destruct (Nat.lt_ge_cases (List.length v) 6) as [Hlt | Hge];
      [assumption |].
    rewrite (from_vector_long v Hge) in E. discriminate E.
  - apply from_vector_long.
  - intros E. destruct (Nat.lt_ge_cases (List.length v) 6) as [Hlt | Hge];
      [| assumption].
    rewrite (from_vector_short v Hlt) in E. discriminate E.
Qed.

(** ** Phases, growth rates and bounds on [exp] *)

Lemma sqrt3_bounds : 1.732 < sqrt 3 < 1.7321.
Proof.
  assert (H3 : 0 <= 3) by lra.
  pose proof (sqrt_sqrt 3 H3) as Hs. pose proof (sqrt_pos 3) as Hp.
  split; nra.
Qed.

Lemma phase_0 : nth 0 TONGUE_PHASES 0 = 0.
Proof. cbn. unfold TAU. field. Qed.

Lemma phase_1 : nth 1 TONGUE_PHASES 0 = PI / 3.
Proof. cbn. unfold TAU. field. Qed.

Lemma phase_2 : nth 2 TONGUE_PHASES 0 = 2 * (PI / 3).
Proof. cbn. unfold TAU. field. Qed.

Lemma phase_3 : nth 3 TONGUE_PHASES 0 = PI.
Proof. cbn. unfold TAU. field. Qed.

Lemma phase_4 : nth 4 TONGUE_PHASES 0 = PI / 3 + PI.
Proof. cbn. unfold TAU. field. Qed.

Lemma phase_5 : nth 5 TONGUE_PHASES 0 = 2 * (PI / 3) + PI.
Proof. cbn. unfold TAU. field. Qed.

Lemma sin_phases :
  map sin TONGUE_PHASES
  = [0; sqrt 3 / 2; sqrt 3 / 2; 0; - (sqrt 3 / 2); - (sqrt 3 / 2)].
Proof.
  change (map sin TONGUE_PHASES)
    with [sin (nth 0 TONGUE_PHASES 0); sin (nth 1 TONGUE_PHASES 0);
          sin (nth 2 TONGUE_PHASES 0); sin (nth 3 TONGUE_PHASES 0);
          sin (nth 4 TONGUE_PHASES 0); sin (nth 5 TONGUE_PHASES 0)].
  rewrite phase_0, phase_1, phase_2, phase_3, phase_4, phase_5.
  rewrite !neg_sin, sin_0, sin_PI3, sin_2PI3, sin_PI. reflexivity.
Qed.

Lemma cos_phases :
  map cos TONGUE_PHASES = [1; 1 / 2; -1 / 2; -1; - (1 / 2); - (-1 / 2)].
Proof.
  change (map cos TONGUE_PHASES)
    with [cos (nth 0 TONGUE_PHASES 0); cos (nth 1 TONGUE_PHASES 0);
          cos (nth 2 TONGUE_PHASES 0); cos (nth 3 TONGUE_PHASES 0);
          cos (nth 4 TONGUE_PHASES 0); cos (nth 5 TONGUE_PHASES 0)].
  rewrite phase_0, phase_1, phase_2, phase_3, phase_4, phase_5.
  rewrite !neg_cos, cos_0, cos_PI3, cos_2PI3, cos_PI. reflexivity.
Qed.

Lemma sin_phase_nth (l : nat) :
  sin (nth l TONGUE_PHASES 0)
  = nth l [0; sqrt 3 / 2; sqrt 3 / 2; 0; - (sqrt 3 / 2); - (sqrt 3 / 2)] 0.
Proof.
  rewrite <- sin_phases.
  transitivity (nth l (map sin TONGUE_PHASES) (sin 0)).
  - symmetry. apply map_nth.
  - rewrite sin_0. reflexivity.
Qed.

(** The growth rates of the default metric: 1.1, 1.05, 0.95, 0.9, 0.95,
    1.05. *)
Lemma default_betas :
  LanguesMetric.betas LanguesMetric.default
  = [1.1; 1.05; 0.95; 0.9; 0.95; 1.05].
Proof.
  unfold LanguesMetric.default, LanguesMetric.init, LanguesMetric.betas.
  rewrite <- (map_map cos (fun c => 1 + 0.1 * c)), cos_phases.
  cbn [map]. repeat (f_equal; try lra).
Qed.

Lemma exp_mult_nat (n : nat) (y : R) : exp (INR n * y) = exp y ^ n.
Proof.
  induction n as [| n IH].
  - simpl. rewrite Rmult_0_l. apply exp_0.
  - rewrite S_INR, Rmult_plus_distr_r, Rmult_1_l, exp_plus, IH. simpl. ring.
Qed.

Lemma exp_1_gt_2 : 2 < exp 1.
Proof. pose proof (exp_ineq1 1). lra. Qed.

Lemma exp_monotone (y z : R) : y <= z -> exp y <= exp z.
Proof.
  intros [H | ->]; [left; apply exp_increasing; exact H | right; reflexivity].
Qed.

(** [exp y <= 1 / (1 - y / 2) ^ 2] below 2, from [1 - y / 2 <= exp (- y / 2)]. *)
Lemma exp_upper (y : R) : y < 2 -> exp y <= / ((1 - y / 2) * (1 - y / 2)).
Proof.
  intros Hy.
  pose proof (exp_ineq1_le (- (y / 2))) as Hlow.
  pose proof (exp_pos (- (y / 2))) as Hpos.
  assert (Hprod : exp y * (exp (- (y / 2)) * exp (- (y / 2))) = 1).
  { rewrite <- !exp_plus. replace (y + (- (y / 2) + - (y / 2))) with 0 by field.
    apply exp_0. }
  set (e := exp (- (y / 2))) in *. set (c := 1 - y / 2).
  assert (Hc : 0 < c) by (unfold c; lra).
  assert (Hce : c <= e) by (unfold c; lra).
  assert (Hcc : 0 < c * c) by nra.
  assert (Hee : c * c <= e * e) by nra.
  replace (exp y) with (/ (e * e)).
  - apply Rinv_le_contravar; assumption.
  - apply Rmult_eq_reg_r with (e * e); [| nra].
    rewrite Rinv_l by nra. symmetry. exact Hprod.
Qed.

(** ** Clamp, and the overflow of [math.exp] *)







Lemma DBL_MAX_lt_pow2 : CPython.DBL_MAX < 2 ^ 1024.
Proof.
  unfold CPython.DBL_MAX. change 1024%nat with (53 + 971)%nat.
  rewrite pow_add.
  assert (H971 : 0 < 2 ^ 971) by (apply pow_lt; lra).
  set (p := 2 ^ 971) in *. set (q := 2 ^ 53). nra.
Qed.

Lemma exp_1100_overflows : CPython.DBL_MAX < exp 1100.
Proof.
  apply Rlt_le_trans with (2 ^ 1024); [apply DBL_MAX_lt_pow2 |].
  apply Rle_trans with (2 ^ 1100).
  - apply Rle_pow; [lra | lia].
  - replace 1100 with (INR 1100 * 1).
    + rewrite exp_mult_nat. apply pow_incr. pose proof exp_1_gt_2. lra.
    + rewrite INR_IZR_INZ, Rmult_1_r. reflexivity.
Qed.


(** C3 fails on the code. With the default metric, the point
    [HyperspacePoint(time=1000.0)] (other fields at their defaults) and
    [t = 0], the first turn of the loop calls [math.exp] on [1.1 * 1000],
    whose value exceeds every double: [compute] raises [OverflowError] and
    the clamp is never reached. *)
Theorem compute_raises_on_exp_overflow :
  CPython.compute LanguesMetric.default
    (HyperspacePoint.mk 1000 0 0 0.8 0.1 0.1) 0 None
  = Raise OverflowError.
Proof.
  unfold CPython.compute. cbv zeta.
  change (seq 0 6) with (0%nat :: seq 1 5).
  cbn [CPython.for_each].
  assert (E : CPython.compute_body LanguesMetric.default
                (LanguesMetric.compute_deviations LanguesMetric.default
                   (HyperspacePoint.mk 1000 0 0 0.8 0.1 0.1)) 0 None 0 0
              = Raise OverflowError).
  { unfold CPython.compute_body. cbn [truthy andb]. cbv zeta.
    rewrite default_betas, deviations_nth by lia.
    rewrite phase_0.
    cbn [nth HyperspacePoint.to_vector IdealState.to_vector
         LanguesMetric.default LanguesMetric.init LanguesMetric.ideal
         IdealState.default HyperspacePoint.time IdealState.time
         TONGUE_FREQUENCIES].
    replace (1 * 0 + 0) with 0 by ring. rewrite sin_0.
    replace (1000 - 0) with 1000 by ring.
    rewrite Rabs_right by lra.
    replace (1.1 * (1000 + 0.1 * 0)) with 1100 by lra.
    unfold CPython.math_exp.
    destruct (Rle_dec (exp 1100) CPython.DBL_MAX) as [Hle | Hgt];
      [| reflexivity].
    pose proof exp_1100_overflows. lra. }
  rewrite E. reflexivity.
Qed.

(** ** Monotonicity in one deviation *)

Lemma metric_term_dev (m : LanguesMetric.t) (x : HyperspacePoint.t) (t : R)
    (l : nat) :
  metric_term m x t l
  = nth l TONGUE_WEIGHTS 0
    * exp (nth l (LanguesMetric.betas m) 0
           * (dev m x l
              + 0.1 * sin (nth l TONGUE_FREQUENCIES 0 * t
                           + nth l TONGUE_PHASES 0))).
Proof. reflexivity. Qed.

Lemma default_beta_range (l : nat) :
  (l < 6)%nat -> 0.9 <= nth l (LanguesMetric.betas LanguesMetric.default) 0 <= 1.1.
Proof. intros H. rewrite default_betas. each_dim H; cbn [nth]; lra. Qed.

Section TermMonotone.

Variables (m : LanguesMetric.t) (x y : HyperspacePoint.t) (t : R) (l : nat).
Hypothesis Hl : (l < 6)%nat.
Hypothesis Hbeta : 0 < nth l (LanguesMetric.betas m) 0.

Lemma metric_term_le :
  dev m x l <= dev m y l -> metric_term m x t l <= metric_term m y t l.
Proof.
  intros Hd. rewrite !metric_term_dev.
  apply Rmult_le_compat_l; [left; apply weight_pos; exact Hl |].
  apply exp_monotone. apply Rmult_le_compat_l; lra.
Qed.

Lemma metric_term_lt :
  dev m x l < dev m y l -> metric_term m x t l < metric_term m y t l.
Proof.
  intros Hd. rewrite !metric_term_dev.
  apply Rmult_lt_compat_l; [apply weight_pos; exact Hl |].
  apply exp_increasing. apply Rmult_lt_compat_l; lra.
Qed.

End TermMonotone.

Lemma sum_over_seq6 (f : nat -> R) :
  sum_over f (seq 0 6) = f 0%nat + f 1%nat + f 2%nat + f 3%nat + f 4%nat + f 5%nat.
Proof. simpl. ring. Qed.

Lemma sum6_le (f g : nat -> R) :
  (forall k, (k < 6)%nat -> f k <= g k) ->
  sum_over f (seq 0 6) <= sum_over g (seq 0 6).
Proof.
  intros H. rewrite !sum_over_seq6.
  pose proof (H 0%nat ltac:(lia)). pose proof (H 1%nat ltac:(lia)).
  pose proof (H 2%nat ltac:(lia)). pose proof (H 3%nat ltac:(lia)).
  pose proof (H 4%nat ltac:(lia)). pose proof (H 5%nat ltac:(lia)). lra.
Qed.

Lemma sum6_lt (f g : nat -> R) (l : nat) :
  (l < 6)%nat ->
  (forall k, (k < 6)%nat -> f k <= g k) ->
  f l < g l ->
  sum_over f (seq 0 6) < sum_over g (seq 0 6).
Proof.
  intros Hl H Hlt. rewrite !sum_over_seq6.
  pose proof (H 0%nat ltac:(lia)). pose proof (H 1%nat ltac:(lia)).
  pose proof (H 2%nat ltac:(lia)). pose proof (H 3%nat ltac:(lia)).
  pose proof (H 4%nat ltac:(lia)). pose proof (H 5%nat ltac:(lia)).
  each_dim Hl; lra.
Qed.

Lemma clamp_lt (s1 s2 c : R) : s1 < s2 -> s1 < c -> Rmin s1 c < Rmin s2 c.
Proof. intros H Hc. unfold Rmin. repeat destruct (Rle_dec _ _); lra. Qed.

Lemma compute_all (m : LanguesMetric.t) (x : HyperspacePoint.t) (t : R) :
  LanguesMetric.compute m x t None
  = Rmin (sum_over (metric_term m x t) (seq 0 6)) (LanguesMetric.clamp_max m).
Proof. rewrite compute_as_sum. reflexivity. Qed.

(** With the default growth rates, deviations of at most [1] keep every
    summand below nine times its weight, and the sum far below the default
    clamp. *)
Lemma default_term_upper (x : HyperspacePoint.t) (t : R) (l : nat) :
  (l < 6)%nat ->
  dev LanguesMetric.default x l <= 1 ->
  metric_term LanguesMetric.default x t l <= nth l TONGUE_WEIGHTS 0 * 9.
Proof.
  intros Hl Hd. rewrite metric_term_dev.
  apply Rmult_le_compat_l; [left; apply weight_pos; exact Hl |].
  pose proof (default_beta_range l Hl) as Hb.
  pose proof (SIN_bound (nth l TONGUE_FREQUENCIES 0 * t
                         + nth l TONGUE_PHASES 0)) as Hs.
  assert (Hd0 : 0 <= dev LanguesMetric.default x l) by apply Rabs_pos.
  apply Rle_trans with (exp (1 + 1)).
  - apply exp_monotone. nra.
  - rewrite exp_plus. pose proof exp_le_3. pose proof (exp_pos 1). nra.
Qed.

Lemma default_sum_upper (x : HyperspacePoint.t) (t : R) :
  (forall l, (l < 6)%nat -> dev LanguesMetric.default x l <= 1) ->
  sum_over (metric_term LanguesMetric.default x t) (seq 0 6) < 250.
Proof.
  intros H.
  apply Rle_lt_trans
    with (sum_over (fun l => nth l TONGUE_WEIGHTS 0 * 9) (seq 0 6)).
  - apply sum6_le. intros k Hk. apply default_term_upper; auto.
  - rewrite sum_over_seq6. cbn [nth TONGUE_WEIGHTS map seq].
    pose proof L_base_bounds as Hb. rewrite L_base_sum in Hb. lra.
Qed.

Ltac eval_Rabs := unfold Rabs; destruct (Rcase_abs _); lra.

Ltac eval_dev :=
  unfold dev;
  cbn [nth HyperspacePoint.to_vector IdealState.to_vector
       LanguesMetric.default LanguesMetric.init LanguesMetric.ideal
       IdealState.default
       HyperspacePoint.time HyperspacePoint.intent HyperspacePoint.policy
       HyperspacePoint.trust HyperspacePoint.risk HyperspacePoint.entropy
       IdealState.time IdealState.intent IdealState.policy
       IdealState.trust IdealState.risk IdealState.entropy].

Lemma dev_ideal_point (l : nat) : dev LanguesMetric.default ideal_point l = 0.
Proof.
  unfold ideal_point.
  destruct l as [| [| [| [| [| [| l]]]]]]; eval_dev; eval_Rabs.
Qed.

Lemma dev_default_point :
  map (dev LanguesMetric.default HyperspacePoint.default) (seq 0 6)
  = [0; 0; 0.5; 0.1; 0; 0.1].
Proof.
  cbn [map seq]. unfold HyperspacePoint.default.
  repeat apply f_equal2; try reflexivity; eval_dev; eval_Rabs.
Qed.

Lemma default_beta_pos (l : nat) :
  (l < 6)%nat -> 0 < nth l (LanguesMetric.betas LanguesMetric.default) 0.
Proof. intros H. pose proof (default_beta_range l H). lra. Qed.


(** C10. The default point is not the ideal state: policy, trust and
    entropy default to [0], [0.8], [0.1] against [0.5], [0.9], [0.2], the
    deviation vector of the default point under the default metric is
    [(0, 0, 0.5, 0.1, 0, 0.1)], and at [t = 0] its cost is strictly above
    that of the ideal-state point. *)
Theorem default_point_is_not_ideal :
  HyperspacePoint.to_vector HyperspacePoint.default
  = [0; 0; 0; 0.8; 0.1; 0.1]
  /\ IdealState.to_vector IdealState.default = [0; 0; 0.5; 0.9; 0.1; 0.2]
  /\ LanguesMetric.compute_deviations LanguesMetric.default
       HyperspacePoint.default
     = [0; 0; 0.5; 0.1; 0; 0.1]
  /\ LanguesMetric.compute LanguesMetric.default ideal_point 0 None
     < LanguesMetric.compute LanguesMetric.default
         HyperspacePoint.default 0 None.
Proof.
  split; [reflexivity | split; [reflexivity | split]].
  - exact dev_default_point.
  - pose proof dev_default_point as Hd. cbn [map seq] in Hd.
    injection Hd as H0 H1 H2 H3 H4 H5.
    rewrite !compute_all. apply clamp_lt.
    + apply sum6_lt with (l := 2%nat); [lia | |].
      * intros k Hk. apply metric_term_le;
          [exact Hk | apply default_beta_pos; exact Hk |].
        rewrite dev_ideal_point. apply Rabs_pos.
      * apply metric_term_lt; [lia | apply default_beta_pos; lia |].
        rewrite dev_ideal_point, H2. lra.
    + apply Rlt_trans with 250.
      * apply default_sum_upper. intros l _. rewrite dev_ideal_point. lra.
      * cbn [LanguesMetric.clamp_max LanguesMetric.default LanguesMetric.init].
        lra.
Qed.

(** ** The monotonicity self-check *)


Section OneDimension.

Variables (l : nat) (p q : HyperspacePoint.t).
Let m := LanguesMetric.default.
Hypothesis Hl : (l < 6)%nat.
Hypothesis Hothers : forall k, (k < 6)%nat -> k <> l -> dev m p k = dev m q k.
Hypothesis Hdev : dev m p l < dev m q l.



End OneDimension.









Lemma sum_ge_term (f : nat -> R) (l : nat) :
  (l < 6)%nat -> (forall k, (k < 6)%nat -> 0 < f k) ->
  f l <= sum_over f (seq 0 6).
Proof.
  intros Hl H. rewrite sum_over_seq6.
  pose proof (H 0%nat ltac:(lia)). pose proof (H 1%nat ltac:(lia)).
  pose proof (H 2%nat ltac:(lia)). pose proof (H 3%nat ltac:(lia)).
  pose proof (H 4%nat ltac:(lia)). pose proof (H 5%nat ltac:(lia)).
  each_dim Hl; lra.
Qed.

(** Once the deviation in the time dimension reaches [20], the cost is the
    clamp itself. *)
Lemma time_deviation_saturates (x : HyperspacePoint.t) :
  20 <= dev LanguesMetric.default x 0 ->
  LanguesMetric.compute LanguesMetric.default x 0 None = 1e6.
Proof.
  intros Hd. rewrite compute_all.
  change (LanguesMetric.clamp_max LanguesMetric.default) with 1e6.
  apply Rmin_right.
  apply Rle_trans with (metric_term LanguesMetric.default x 0 0).
  - rewrite metric_term_dev, default_betas.
    set (d := dev LanguesMetric.default x 0) in *.
    cbn [nth TONGUE_WEIGHTS map seq TONGUE_FREQUENCIES].
    rewrite phase_0. replace (1 * 0 + 0) with 0 by ring. rewrite sin_0.
    assert (E : 2 ^ 20 <= exp (1.1 * (d + 0.1 * 0))).
    { apply Rle_trans with (exp (INR 20 * 1)).
      - rewrite exp_mult_nat. apply pow_incr. pose proof exp_1_gt_2. lra.
      - apply exp_monotone. rewrite INR_IZR_INZ.
        change (IZR (Z.of_nat 20)) with 20. lra. }
    rewrite pow_O. lra.
  - apply sum_ge_term; [lia |]. intros k Hk. apply metric_term_pos. exact Hk.
Qed.


Lemma PHI_pow_pos (k : nat) : 0 < PHI ^ k.
Proof. apply pow_lt. pose proof PHI_bounds. lra. Qed.

(** ** Risk banding of the two reference points *)

Lemma default_term_at_0 (x : HyperspacePoint.t) (l : nat) :
  (l < 6)%nat ->
  metric_term LanguesMetric.default x 0 l
  = PHI ^ l
    * exp (nth l [1.1; 1.05; 0.95; 0.9; 0.95; 1.05] 0
           * (dev LanguesMetric.default x l
              + 0.1 * nth l [0; sqrt 3 / 2; sqrt 3 / 2; 0;
                             - (sqrt 3 / 2); - (sqrt 3 / 2)] 0)).
Proof.
  intros H. rewrite metric_term_dev, default_betas, weight_nth by exact H.
  replace (nth l TONGUE_FREQUENCIES 0 * 0 + nth l TONGUE_PHASES 0)
    with (nth l TONGUE_PHASES 0) by ring.
  rewrite sin_phase_nth. reflexivity.
Qed.

Lemma exp_upper_num (y c b : R) :
  y < 2 -> 0 < c <= 1 - y / 2 -> 1 <= b * (c * c) -> exp y <= b.
Proof.
  intros Hy [Hc Hcy] Hb.
  apply Rle_trans with (1 := exp_upper y Hy).
  assert (Hcc : 0 < c * c) by nra.
  assert (Hyy : c * c <= (1 - y / 2) * (1 - y / 2)) by nra.
  apply Rle_trans with (/ (c * c)).
  - apply Rinv_le_contravar; assumption.
  - apply Rmult_le_reg_r with (c * c); [exact Hcc |].
    rewrite Rinv_l by lra. exact Hb.
Qed.

Lemma mul_bounds (w e wl wh el eh : R) :
  0 <= wl -> 0 <= el -> wl <= w <= wh -> el <= e <= eh ->
  wl * el <= w * e <= wh * eh.
Proof. intros. split; apply Rmult_le_compat; lra. Qed.

(** The cost of the ideal-state point is below the first threshold. *)
Lemma safe_cost_band :
  LanguesMetric.compute LanguesMetric.default ideal_point 0 None
  < LanguesMetric.L_base * 1.5.
Proof.
  rewrite compute_all. apply Rle_lt_trans with (1 := Rmin_l _ _).
  apply Rle_lt_trans
    with (sum_over (fun l => nth l TONGUE_WEIGHTS 0 * 1.2) (seq 0 6)).
  - apply sum6_le. intros k Hk. rewrite metric_term_dev, dev_ideal_point.
    apply Rmult_le_compat_l; [left; apply weight_pos; exact Hk |].
    pose proof (default_beta_range k Hk) as Hb.
    pose proof (SIN_bound (nth k TONGUE_FREQUENCIES 0 * 0
                           + nth k TONGUE_PHASES 0)) as Hs.
    apply Rle_trans with (exp 0.11); [apply exp_monotone; nra |].
    apply exp_upper_num with (c := 0.945); lra.
  - rewrite sum_over_seq6. cbn [nth TONGUE_WEIGHTS map seq].
    pose proof L_base_bounds as Hb. rewrite L_base_sum in *. lra.
Qed.

Lemma dev_attack_point :
  map (dev LanguesMetric.default attack_point) (seq 0 6)
  = [0; 1.5; 0.4; 0.7; 0.8; 0.6].
Proof.
  cbn [map seq]. unfold attack_point.
  repeat apply f_equal2; try reflexivity; eval_dev; eval_Rabs.
Qed.

(** The unclamped cost of the attack point lies between 44 and 62. *)
Lemma attack_sum_bounds :
  44 <= sum_over (metric_term LanguesMetric.default attack_point 0) (seq 0 6)
     <= 62.
Proof.
  pose proof dev_attack_point as Hd. cbn [map seq] in Hd.
  injection Hd as D0 D1 D2 D3 D4 D5.
  rewrite sum_over_seq6, !default_term_at_0 by lia.
  rewrite D0, D1, D2, D3, D4, D5. cbn [nth].
  pose proof sqrt3_bounds as Hs. set (s := sqrt 3) in *.
  pose proof PHI_bounds as Hphi.
  rewrite PHI_pow2, PHI_pow3, PHI_pow4, PHI_pow5, pow_O, pow_1.
  replace (1.1 * (0 + 0.1 * 0)) with 0 by lra. rewrite exp_0.
  replace (1.05 * (1.5 + 0.1 * (s / 2)))
    with (1 + (1.05 * (1.5 + 0.1 * (s / 2)) - 1)) by ring.
  rewrite exp_plus.
  set (y1 := 1.05 * (1.5 + 0.1 * (s / 2)) - 1).
  set (y2 := 0.95 * (0.4 + 0.1 * (s / 2))).
  set (y3 := 0.9 * (0.7 + 0.1 * 0)).
  set (y4 := 0.95 * (0.8 + 0.1 * - (s / 2))).
  set (y5 := 1.05 * (0.6 + 0.1 * - (s / 2))).
  assert (E0 : 2 < exp 1 <= 3) by (split; [apply exp_1_gt_2 | apply exp_le_3]).
  assert (E1 : 1.6659 <= exp y1 <= 2.25).
  { split; [pose proof (exp_ineq1_le y1); unfold y1 in *; lra |].
    apply exp_upper_num with (c := 0.667); unfold y1; lra. }
  assert (E2 : 1.4622 <= exp y2 <= 1.70).
  { split; [pose proof (exp_ineq1_le y2); unfold y2 in *; lra |].
    apply exp_upper_num with (c := 0.7688); unfold y2; lra. }
  assert (E3 : 1.63 <= exp y3 <= 2.14).
  { split; [pose proof (exp_ineq1_le y3); unfold y3 in *; lra |].
    apply exp_upper_num with (c := 0.685); unfold y3; lra. }
  assert (E4 : 1.6777 <= exp y4 <= 2.29).
  { split; [pose proof (exp_ineq1_le y4); unfold y4 in *; lra |].
    apply exp_upper_num with (c := 0.6611); unfold y4; lra. }
  assert (E5 : 1.539 <= exp y5 <= 1.88).
  { split; [pose proof (exp_ineq1_le y5); unfold y5 in *; lra |].
    apply exp_upper_num with (c := 0.7304); unfold y5; lra. }
  assert (E01 : 2 * 1.6659 <= exp 1 * exp y1 <= 3 * 2.25)
    by (apply mul_bounds; lra).
  pose proof (mul_bounds PHI (exp 1 * exp y1) 1.618 1.61805
                (2 * 1.6659) (3 * 2.25)) as T1.
  pose proof (mul_bounds (PHI + 1) (exp y2) 2.618 2.61805 1.4622 1.70) as T2.
  pose proof (mul_bounds (2 * PHI + 1) (exp y3) 4.236 4.2361 1.63 2.14) as T3.
  pose proof (mul_bounds (3 * PHI + 2) (exp y4) 6.854 6.85415 1.6777 2.29)
    as T4.
  pose proof (mul_bounds (5 * PHI + 3) (exp y5) 11.09 11.09025 1.539 1.88)
    as T5.
  lra.
Qed.

(** The cost of the attack point lies in the second band. *)
Lemma attack_cost_band :
  LanguesMetric.L_base * 1.5
  <= LanguesMetric.compute LanguesMetric.default attack_point 0 None
  < LanguesMetric.L_base * 3.0.
Proof.
  pose proof attack_sum_bounds as Hs. pose proof L_base_bounds as Hb.
  rewrite compute_all.
  change (LanguesMetric.clamp_max LanguesMetric.default) with 1e6.
  rewrite Rmin_left by lra. lra.
Qed.

(** C2, as stated, fails: the cost of the point (time 0, intent 1.5,
    policy 0.1, trust 0.2, risk 0.9, entropy 0.8) is below [10 * L_base],
    and [risk_level] does not answer CRITICAL/DENY. *)
Lemma attack_point_is_not_critical :
  LanguesMetric.risk_level LanguesMetric.default
    (LanguesMetric.compute LanguesMetric.default
       (HyperspacePoint.mk 0 1.5 0.1 0.2 0.9 0.8) 0 None)
  <> ("CRITICAL", "DENY")%string.
Proof.
  pose proof attack_cost_band as [Hlo Hhi]. pose proof L_base_bounds as Hb.
  fold attack_point. unfold LanguesMetric.risk_level.
  repeat destruct (Rlt_dec _ _); try discriminate. lra.
Qed.

(** C2, amended. With the default metric and ideal state at [t = 0], the
    point equal to the ideal state is classified LOW/ALLOW, and the point
    (time 0, intent 1.5, policy 0.1, trust 0.2, risk 0.9, entropy 0.8) is
    classified MEDIUM/QUARANTINE. *)
Theorem reference_points_risk_levels :
  LanguesMetric.risk_level LanguesMetric.default
    (LanguesMetric.compute LanguesMetric.default
       (HyperspacePoint.mk 0 0 0.5 0.9 0.1 0.2) 0 None)
  = ("LOW", "ALLOW")%string
  /\ LanguesMetric.risk_level LanguesMetric.default
       (LanguesMetric.compute LanguesMetric.default
          (HyperspacePoint.mk 0 1.5 0.1 0.2 0.9 0.8) 0 None)
     = ("MEDIUM", "QUARANTINE")%string.
Proof.
  pose proof safe_cost_band as Hsafe. pose proof attack_cost_band as [Hlo Hhi].
  fold ideal_point attack_point. unfold LanguesMetric.risk_level. split.
  - destruct (Rlt_dec _ _); [reflexivity | contradiction].
  - destruct (Rlt_dec _ (LanguesMetric.L_base * 1.5)); [lra |].
    destruct (Rlt_dec _ (LanguesMetric.L_base * 3.0));
      [reflexivity | contradiction].
Qed.

(** * Further properties of the module *)

(** ** Vectors and deviations *)

(** X1. [from_vector] undoes [to_vector], and entries after the sixth are
    ignored: reading the vector of a point, followed by anything, gives the
    point back. *)
Theorem from_vector_to_vector (p : HyperspacePoint.t) (rest : list R) :
  List.length (HyperspacePoint.to_vector p) = 6%nat
  /\ HyperspacePoint.from_vector (HyperspacePoint.to_vector p ++ rest) = Ok p.
Proof. destruct p. split; reflexivity. Qed.

Lemma Rabs_zero_iff (a b : R) : Rabs (a - b) = 0 <-> a = b.
Proof.
  split.
  - intros H. destruct (Req_dec (a - b) 0) as [E | N]; [lra |].
    apply Rabs_no_R0 in N. contradiction.
  - intros ->. rewrite Rminus_diag. apply Rabs_R0.
Qed.

(** X2. [compute_deviations] returns six non-negative numbers, and they are
    all zero exactly when the point has the six coordinates of the ideal
    state. *)
Theorem compute_deviations_zero_iff
    (m : LanguesMetric.t) (x : HyperspacePoint.t) :
  List.length (LanguesMetric.compute_deviations m x) = 6%nat
  /\ Forall (fun d => 0 <= d) (LanguesMetric.compute_deviations m x)
  /\ (LanguesMetric.compute_deviations m x = [0; 0; 0; 0; 0; 0]
      <-> HyperspacePoint.to_vector x
          = IdealState.to_vector (LanguesMetric.ideal m)).
Proof.
  split; [reflexivity | split].
  - unfold LanguesMetric.compute_deviations. cbv zeta. cbn [map seq].
    repeat (apply Forall_cons; [apply Rabs_pos |]). apply Forall_nil.
  - unfold LanguesMetric.compute_deviations. cbv zeta.
    destruct x as [x0 x1 x2 x3 x4 x5].
    destruct (LanguesMetric.ideal m) as [m0 m1 m2 m3 m4 m5].
    cbn [map seq nth HyperspacePoint.to_vector IdealState.to_vector
         HyperspacePoint.time HyperspacePoint.intent HyperspacePoint.policy
         HyperspacePoint.trust HyperspacePoint.risk HyperspacePoint.entropy
         IdealState.time IdealState.intent IdealState.policy
         IdealState.trust IdealState.risk IdealState.entropy].
    split.
    + intros [= H0 H1 H2 H3 H4 H5].
      apply (proj1 (Rabs_zero_iff _ _)) in H0, H1, H2, H3, H4, H5.
      subst. reflexivity.
    + intros [= -> -> -> -> -> ->].
      rewrite !(proj2 (Rabs_zero_iff _ _) eq_refl). reflexivity.
Qed.

(** X3. The growth rates stored by [__init__] are [beta_base] shifted by
    [0.1, 0.05, -0.05, -0.1, -0.05, 0.05]: they stay within [0.1] of
    [beta_base] and are all positive exactly when [beta_base > 0.1]. *)
Theorem init_betas_values
    (beta_base clamp_max : R) (ideal : option IdealState.t) :
  LanguesMetric.betas (LanguesMetric.init beta_base clamp_max ideal)
  = [beta_base + 0.1; beta_base + 0.05; beta_base - 0.05; beta_base - 0.1;
     beta_base - 0.05; beta_base + 0.05]
  /\ (Forall (fun b => 0 < b)
        (LanguesMetric.betas (LanguesMetric.init beta_base clamp_max ideal))
      <-> 0.1 < beta_base).
Proof.
  assert (E : LanguesMetric.betas (LanguesMetric.init beta_base clamp_max ideal)
              = [beta_base + 0.1; beta_base + 0.05; beta_base - 0.05;
                 beta_base - 0.1; beta_base - 0.05; beta_base + 0.05]).
  { unfold LanguesMetric.init, LanguesMetric.betas.
    rewrite <- (map_map cos (fun c => beta_base + 0.1 * c)), cos_phases.
    cbn [map]. repeat (f_equal; try lra). }
  split; [exact E |]. rewrite E. split.
  - intros H. do 3 apply Forall_inv_tail in H. apply Forall_inv in H. lra.
  - intros H. repeat (apply Forall_cons; [lra |]). apply Forall_nil.
Qed.

(** ** Tongue filters *)

Lemma tongue_in_TONGUES (l : nat) :
  (l < 6)%nat -> In (nth l TONGUES EmptyString) TONGUES.
Proof. intros H. apply nth_In. exact H. Qed.

Lemma filter_all (keep : nat -> bool) (ls : list nat) :
  Forall (fun l => keep l = true) ls -> filter keep ls = ls.
Proof. induction 1 as [| l ls Hl _ IH]; simpl; [| rewrite Hl, IH]; reflexivity. Qed.

Lemma filter_none (keep : nat -> bool) (ls : list nat) :
  Forall (fun l => keep l = false) ls -> filter keep ls = [].
Proof. induction 1 as [| l ls Hl _ IH]; simpl; [| rewrite Hl, IH]; reflexivity. Qed.

(** X5. A tongue list that names all six tongues, in any order and with
    any further entries, filters nothing: [compute] equals [compute]
    without a list. *)
Theorem compute_full_filter (m : LanguesMetric.t) (x : HyperspacePoint.t)
    (t : R) (ts : list string) :
  (forall tongue, In tongue TONGUES -> In tongue ts) ->
  LanguesMetric.compute m x t (Some ts) = LanguesMetric.compute m x t None.
Proof.
  intros Hall. rewrite compute_all, compute_as_sum. f_equal. f_equal.
  apply filter_all. eapply Forall_impl; [| apply range6].
  intros l Hl. cbv beta.
  assert (Hin : In (nth l TONGUES EmptyString) ts)
    by (apply Hall, tongue_in_TONGUES; exact Hl).
  unfold excluded. destruct ts as [| s ts']; [destruct Hin |].
  rewrite negb_involutive. apply existsb_exists.
  exists (nth l TONGUES EmptyString). split; [exact Hin | apply String.eqb_refl].
Qed.

(** The theorem for the six tongues in reverse order. *)
Lemma compute_full_filter_witness :
  LanguesMetric.compute LanguesMetric.default HyperspacePoint.default 0
    (Some ["DR"; "UM"; "CA"; "RU"; "AV"; "KO"]%string)
  = LanguesMetric.compute LanguesMetric.default HyperspacePoint.default 0 None.
Proof.
  apply (compute_full_filter LanguesMetric.default HyperspacePoint.default 0
           ["DR"; "UM"; "CA"; "RU"; "AV"; "KO"]%string).
  intros tongue H. simpl in H. simpl.
  destruct H as [<- | [<- | [<- | [<- | [<- | [<- | []]]]]]]; tauto.
Defined.

(** X6. A non-empty tongue list without any of the six tongue names (a
    misspelt or lower-case name, say) silences every dimension: whatever
    the point, [compute] returns [min(0, clamp_max)] and [risk_level]
    answers LOW/ALLOW. *)
Theorem compute_unknown_tongues (m : LanguesMetric.t)
    (x : HyperspacePoint.t) (t : R) (ts : list string) :
  ts <> [] ->
  (forall tongue, In tongue ts -> ~ In tongue TONGUES) ->
  LanguesMetric.compute m x t (Some ts) = Rmin 0 (LanguesMetric.clamp_max m)
  /\ LanguesMetric.risk_level m (LanguesMetric.compute m x t (Some ts))
     = ("LOW", "ALLOW")%string.
Proof.
  intros Hne Hnone.
  assert (E : LanguesMetric.compute m x t (Some ts)
              = Rmin 0 (LanguesMetric.clamp_max m)).
  { rewrite compute_as_sum. f_equal.
    rewrite filter_none; [reflexivity |].
    eapply Forall_impl; [| apply range6].
    intros l Hl. cbv beta. unfold excluded.
    destruct ts as [| s ts']; [contradiction |].
    rewrite negb_involutive.
    destruct (existsb _ (s :: ts')) eqn:Ex; [| reflexivity].
    apply existsb_exists in Ex. destruct Ex as (s' & Hin & Heq).
    apply String.eqb_eq in Heq. subst s'.
    exfalso. apply (Hnone _ Hin). apply tongue_in_TONGUES. exact Hl. }
  split; [exact E |].
  rewrite E. unfold LanguesMetric.risk_level.
  pose proof (Rmin_l 0 (LanguesMetric.clamp_max m)).
  pose proof L_base_bounds.
  destruct (Rlt_dec _ _); [reflexivity | lra].
Qed.

(** The theorem for the lower-case list [["ko"]] and the attack point. *)
Lemma compute_unknown_tongues_witness :
  LanguesMetric.compute LanguesMetric.default
    (HyperspacePoint.mk 0 1.5 0.1 0.2 0.9 0.8) 0 (Some ["ko"%string])
  = Rmin 0 (LanguesMetric.clamp_max LanguesMetric.default)
  /\ LanguesMetric.risk_level LanguesMetric.default
       (LanguesMetric.compute LanguesMetric.default
          (HyperspacePoint.mk 0 1.5 0.1 0.2 0.9 0.8) 0 (Some ["ko"%string]))
     = ("LOW", "ALLOW")%string.
Proof.
  apply (compute_unknown_tongues LanguesMetric.default
           (HyperspacePoint.mk 0 1.5 0.1 0.2 0.9 0.8) 0 ["ko"%string]).
  - discriminate.
  - intros tongue [<- | []] H. simpl in H.
    destruct H as [H | [H | [H | [H | [H | [H | []]]]]]]; discriminate H.
Defined.

(** ** The clamp *)

(** ** Monotonicity and periodicity *)

Lemma init_beta_lower (beta_base clamp_max : R) (ideal : option IdealState.t)
    (l : nat) :
  (l < 6)%nat ->
  beta_base - 0.1
  <= nth l (LanguesMetric.betas (LanguesMetric.init beta_base clamp_max ideal)) 0.
Proof.
  intros Hl. rewrite betas_nth by exact Hl. unfold spec_beta.
  pose proof (COS_bound (nth l TONGUE_PHASES 0)). lra.
Qed.

Lemma phase_shift_period (t : R) (l : nat) :
  (l < 6)%nat ->
  sin (nth l TONGUE_FREQUENCIES 0 * (t + 48 * PI) + nth l TONGUE_PHASES 0)
  = sin (nth l TONGUE_FREQUENCIES 0 * t + nth l TONGUE_PHASES 0).
Proof.
  intros Hl.
  assert (P : forall (k : nat) (a b : R), b = a + 2 * INR k * PI -> sin b = sin a)
    by (intros k a b ->; apply sin_period).
  each_dim Hl; cbn [nth TONGUE_FREQUENCIES];
    [apply (P 24%nat) | apply (P 27%nat) | apply (P 30%nat) | apply (P 32%nat)
     | apply (P 36%nat) | apply (P 40%nat)];
    rewrite INR_IZR_INZ; cbn [Z.of_nat Pos.of_succ_nat Pos.succ]; field.
Qed.

(** X10. The cost is periodic in the time parameter: the six frequencies
    are fractions with common denominator 24, so [compute] at [t + 48 * PI]
    equals [compute] at [t], for every metric, point and tongue list. *)
Theorem compute_time_period (m : LanguesMetric.t) (x : HyperspacePoint.t)
    (t : R) (active_tongues : option (list string)) :
  LanguesMetric.compute m x (t + 48 * PI) active_tongues
  = LanguesMetric.compute m x t active_tongues.
Proof.
  rewrite !compute_as_sum. f_equal. apply sum_over_ext.
  apply incl_Forall with (l1 := seq 0 6); [apply incl_filter |].
  eapply Forall_impl; [| apply range6].
  intros l Hl. cbv beta. rewrite !metric_term_dev.
  rewrite phase_shift_period by exact Hl. reflexivity.
Qed.

(** ** The sign of the gradient *)

(** ** The metric tensor and the distance *)

(** ** The self-checks of the constant tables *)

Lemma tolerance_pos : 0 < 1e-10.
Proof. lra. Qed.

Lemma verify_phase_bounded_dims_true (t : nat) (ls : list nat) :
  verify_phase_bounded_dims t ls = true.
Proof.
  induction ls as [| l ls IH]; [reflexivity |].
  cbn [verify_phase_bounded_dims]. cbv zeta.
  destruct (Rgt_dec _ _) as [Hgt | _]; [| exact IH].
  exfalso.
  pose proof (SIN_bound (nth l TONGUE_FREQUENCIES 0 * INR t
                         + nth l TONGUE_PHASES 0)) as [Hlo Hhi].
  pose proof tolerance_pos.
  unfold Rabs in Hgt. destruct (Rcase_abs _) in Hgt; lra.
Qed.

(** X15. [verify_phase_bounded] returns [True]; the check cannot fail on
    any list of times, since a sine never exceeds [1] in absolute value. *)
Theorem verify_phase_bounded_true (ts : list nat) :
  verify_phase_bounded_times ts = true /\ verify_phase_bounded = true.
Proof.
  assert (E : forall ts', verify_phase_bounded_times ts' = true).
  { induction ts' as [| t ts' IH]; [reflexivity |].
    cbn [verify_phase_bounded_times].
    rewrite verify_phase_bounded_dims_true. exact IH. }
  split; [apply E | apply E].
Qed.

Lemma weight_ratio (l : nat) :
  (l < 5)%nat ->
  nth (l + 1) TONGUE_WEIGHTS 0 / nth l TONGUE_WEIGHTS 0 = PHI.
Proof.
  intros Hl. rewrite !weight_nth by lia.
  rewrite Nat.add_1_r. cbn [pow].
  pose proof (PHI_pow_pos l). field. lra.
Qed.

(** X16. Consecutive tongue weights are in the exact ratio [PHI], and
    [verify_tongue_weights] returns [True]. *)
Theorem verify_tongue_weights_true :
  Forall (fun l => nth (l + 1) TONGUE_WEIGHTS 0 / nth l TONGUE_WEIGHTS 0 = PHI)
    (seq 0 5)
  /\ verify_tongue_weights = true.
Proof.
  assert (R5 : Forall (fun l => (l < 5)%nat) (seq 0 5))
    by (repeat constructor).
  split.
  - eapply Forall_impl; [| exact R5]. intros l Hl. apply weight_ratio, Hl.
  - unfold verify_tongue_weights. induction R5 as [| l ls Hl _ IH];
      [reflexivity |].
    cbn [verify_tongue_weights_from]. cbv zeta.
    rewrite weight_ratio by exact Hl.
    rewrite Rminus_diag, Rabs_R0.
    destruct (Rgt_dec 0 1e-10) as [Hgt | _]; [| exact IH].
    pose proof tolerance_pos. lra.
Qed.

Lemma phase_step (l : nat) :
  (l < 5)%nat ->
  nth (l + 1) TONGUE_PHASES 0 - nth l TONGUE_PHASES 0 = TAU / 6.
Proof.
  intros Hl.
  destruct l as [| [| [| [| [| l]]]]]; try lia; cbn [Nat.add];
    rewrite ?phase_0, ?phase_1, ?phase_2, ?phase_3, ?phase_4, ?phase_5;
    unfold TAU; field.
Qed.

(** X17. Consecutive tongue phases differ by exactly [TAU / 6], and
    [verify_six_fold_symmetry] returns [True]. *)
Theorem verify_six_fold_symmetry_true :
  Forall (fun l => nth (l + 1) TONGUE_PHASES 0 - nth l TONGUE_PHASES 0
                   = TAU / 6) (seq 0 5)
  /\ verify_six_fold_symmetry = true.
Proof.
  assert (R5 : Forall (fun l => (l < 5)%nat) (seq 0 5))
    by (repeat constructor).
  split.
  - eapply Forall_impl; [| exact R5]. intros l Hl. apply phase_step, Hl.
  - unfold verify_six_fold_symmetry. cbv zeta.
    induction R5 as [| l ls Hl _ IH]; [reflexivity |].
    cbn [verify_six_fold_symmetry_from]. cbv zeta.
    rewrite phase_step by exact Hl.
    rewrite Rminus_diag, Rabs_R0.
    destruct (Rgt_dec 0 1e-10) as [Hgt | _]; [| exact IH].
    pose proof tolerance_pos. lra.
Qed.

(** X18. The base threshold of [risk_level] is [12 * PHI + 8], between
    27.416 and 27.4166; the three band limits are therefore about 41.1,
    82.2 and 274.2. *)
Theorem L_base_value :
  LanguesMetric.L_base = 12 * PHI + 8
  /\ 27.416 < LanguesMetric.L_base < 27.4166
  /\ 41.12 < LanguesMetric.L_base * 1.5 < 41.13
  /\ 82.24 < LanguesMetric.L_base * 3.0 < 82.25
  /\ 274.16 < LanguesMetric.L_base * 10.0 < 274.17.
Proof.
  pose proof L_base_bounds. split; [apply L_base_linear | lra].
Qed.



(** ** Tongue lists as sets, and the cost per tongue *)

Lemma existsb_same_members (f : string -> bool) (ts1 ts2 : list string) :
  (forall s, In s ts1 <-> In s ts2) -> existsb f ts1 = existsb f ts2.
Proof.
  intros H. apply eq_true_iff_eq. rewrite !existsb_exists.
  split; intros (s & Hin & Hf); exists s; split; try apply H; assumption.
Qed.

(** X21. Only the set of names in a tongue list matters: two lists with
    the same members, in any order and with any repetitions, give the same
    cost. *)
Theorem compute_filter_as_set (m : LanguesMetric.t) (x : HyperspacePoint.t)
    (t : R) (ts1 ts2 : list string) :
  (forall s, In s ts1 <-> In s ts2) ->
  LanguesMetric.compute m x t (Some ts1) = LanguesMetric.compute m x t (Some ts2).
Proof.
  intros H. rewrite !compute_as_sum. f_equal. f_equal.
  apply filter_ext. intros l. f_equal. unfold excluded.
  destruct ts1 as [| s1 ts1'], ts2 as [| s2 ts2']; try reflexivity.
  - exfalso. apply (H s2). left. reflexivity.
  - exfalso. apply (H s1). left. reflexivity.
  - f_equal. apply existsb_same_members. exact H.
Qed.

(** The theorem for a repeated and reordered list. *)
Lemma compute_filter_as_set_witness :
  LanguesMetric.compute LanguesMetric.default HyperspacePoint.default 0
    (Some ["AV"; "KO"; "AV"]%string)
  = LanguesMetric.compute LanguesMetric.default HyperspacePoint.default 0
      (Some ["KO"; "AV"]%string).
Proof.
  apply (compute_filter_as_set LanguesMetric.default HyperspacePoint.default 0
           ["AV"; "KO"; "AV"]%string ["KO"; "AV"]%string).
  intros s. simpl. tauto.
Defined.

Lemma compute_single_tongue (m : LanguesMetric.t) (x : HyperspacePoint.t)
    (t : R) (l : nat) :
  (l < 6)%nat ->
  LanguesMetric.compute m x t (Some [nth l TONGUES EmptyString])
  = Rmin (metric_term m x t l) (LanguesMetric.clamp_max m).
Proof.
  intros Hl. rewrite compute_as_sum. f_equal.
  each_dim Hl; cbn [filter seq excluded existsb nth TONGUES negb orb
                    String.eqb Ascii.eqb Bool.eqb andb sum_over fold_right];
    ring.
Qed.

(** X22. Below the clamp the cost splits by tongue: when [compute]
    without a tongue list is below [clamp_max], it is the sum of the six
    costs computed with one tongue at a time. *)
Theorem compute_splits_by_tongue (m : LanguesMetric.t) (x : HyperspacePoint.t)
    (t : R) :
  LanguesMetric.compute m x t None < LanguesMetric.clamp_max m ->
  LanguesMetric.compute m x t None
  = LanguesMetric.compute m x t (Some ["KO"%string])
    + LanguesMetric.compute m x t (Some ["AV"%string])
    + LanguesMetric.compute m x t (Some ["RU"%string])
    + LanguesMetric.compute m x t (Some ["CA"%string])
    + LanguesMetric.compute m x t (Some ["UM"%string])
    + LanguesMetric.compute m x t (Some ["DR"%string]).
Proof.
  intros Hc.
  pose proof (compute_single_tongue m x t 0 ltac:(lia)) as E0.
  pose proof (compute_single_tongue m x t 1 ltac:(lia)) as E1.
  pose proof (compute_single_tongue m x t 2 ltac:(lia)) as E2.
  pose proof (compute_single_tongue m x t 3 ltac:(lia)) as E3.
  pose proof (compute_single_tongue m x t 4 ltac:(lia)) as E4.
  pose proof (compute_single_tongue m x t 5 ltac:(lia)) as E5.
  cbn [nth TONGUES] in E0, E1, E2, E3, E4, E5.
  rewrite E0, E1, E2, E3, E4, E5. clear E0 E1 E2 E3 E4 E5.
  rewrite compute_all in *. rewrite sum_over_seq6 in *.
  pose proof (metric_term_pos m x t 0 ltac:(lia)).
  pose proof (metric_term_pos m x t 1 ltac:(lia)).
  pose proof (metric_term_pos m x t 2 ltac:(lia)).
  pose proof (metric_term_pos m x t 3 ltac:(lia)).
  pose proof (metric_term_pos m x t 4 ltac:(lia)).
  pose proof (metric_term_pos m x t 5 ltac:(lia)).
  unfold Rmin in *. repeat destruct (Rle_dec _ _); lra.
Qed.

(** The theorem for the default metric at the ideal-state point. *)
Lemma compute_splits_by_tongue_witness :
  LanguesMetric.compute LanguesMetric.default ideal_point 0 None
  = LanguesMetric.compute LanguesMetric.default ideal_point 0
      (Some ["KO"%string])
    + LanguesMetric.compute LanguesMetric.default ideal_point 0
        (Some ["AV"%string])
    + LanguesMetric.compute LanguesMetric.default ideal_point 0
        (Some ["RU"%string])
    + LanguesMetric.compute LanguesMetric.default ideal_point 0
        (Some ["CA"%string])
    + LanguesMetric.compute LanguesMetric.default ideal_point 0
        (Some ["UM"%string])
    + LanguesMetric.compute LanguesMetric.default ideal_point 0
        (Some ["DR"%string]).
Proof.
  apply (compute_splits_by_tongue LanguesMetric.default ideal_point 0).
  apply Rlt_trans with (LanguesMetric.L_base * 1.5);
    [exact safe_cost_band |].
  cbn [LanguesMetric.clamp_max LanguesMetric.default LanguesMetric.init].
  pose proof L_base_bounds. lra.
Defined.

(** * The functions on doubles with their range *)

(** ** The range *)

Lemma DBL_MAX_big : 1e300 <= Float.DBL_MAX.
Proof. unfold Float.DBL_MAX, CPython.DBL_MAX. lra. Qed.

Lemma DBL_HALF_MIN_small : 0 < Float.DBL_HALF_MIN < 1e-300.
Proof. unfold Float.DBL_HALF_MIN. lra. Qed.

Lemma to_double_exact (r : R) :
  Float.DBL_HALF_MIN < Rabs r -> Rabs r <= Float.DBL_MAX ->
  Float.to_double r = Float.Fin r.
Proof.
  intros Hlo Hhi. unfold Float.to_double.
  unfold Rabs in Hlo, Hhi. destruct (Rcase_abs r).
  - destruct (Rlt_dec Float.DBL_MAX r); [pose proof DBL_MAX_big; lra |].
    destruct (Rlt_dec r (- Float.DBL_MAX)); [lra |].
    destruct (Rle_dec (Rabs r) Float.DBL_HALF_MIN) as [H | _]; [| reflexivity].
    rewrite Rabs_left in H by assumption. lra.
  - destruct (Rlt_dec Float.DBL_MAX r); [lra |].
    destruct (Rlt_dec r (- Float.DBL_MAX)); [pose proof DBL_MAX_big; lra |].
    destruct (Rle_dec (Rabs r) Float.DBL_HALF_MIN) as [H | _]; [| reflexivity].
    rewrite Rabs_right in H by assumption. lra.
Qed.

Lemma to_double_normal (r : R) :
  1e-300 <= Rabs r <= 1e300 -> Float.to_double r = Float.Fin r.
Proof.
  intros [Hlo Hhi]. pose proof DBL_MAX_big. pose proof DBL_HALF_MIN_small.
  apply to_double_exact; lra.
Qed.

Lemma to_double_flush (r : R) :
  Rabs r <= Float.DBL_HALF_MIN -> Float.to_double r = Float.Fin 0.
Proof.
  intros H. unfold Float.to_double.
  pose proof DBL_MAX_big. pose proof DBL_HALF_MIN_small.
  assert (Hr : - Float.DBL_HALF_MIN <= r <= Float.DBL_HALF_MIN)
    by (unfold Rabs in H; destruct (Rcase_abs r); lra).
  destruct (Rlt_dec Float.DBL_MAX r); [lra |].
  destruct (Rlt_dec r (- Float.DBL_MAX)); [lra |].
  destruct (Rle_dec (Rabs r) Float.DBL_HALF_MIN); [reflexivity | contradiction].
Qed.

Lemma to_double_0 : Float.to_double 0 = Float.Fin 0.
Proof.
  apply to_double_flush. rewrite Rabs_R0. pose proof DBL_HALF_MIN_small. lra.
Qed.

(** Rewrites [to_double] at a number of ordinary size, or at zero. *)
Ltac double_normal r :=
  rewrite (to_double_normal r)
    by (unfold Rabs; destruct (Rcase_abs _); lra).

Ltac double_zero r :=
  replace r with 0 by lra; rewrite to_double_0.

(** ** The overflow of [math.exp] at a deviation of 1000 *)

(** The exponential of the first dimension for the default metric at
    [t = 0] and a time coordinate of 1000. *)
Lemma first_exponential_overflows :
  Float.math_exp
    (Float.mul (Float.Fin 1.1)
       (Float.add (Float.abs (Float.sub (Float.Fin 1000) (Float.Fin 0)))
          (Float.mul (Float.Fin 0.1) (Float.Fin 0))))
  = Raise OverflowError.
Proof.
  unfold Float.sub. cbn [Float.neg Float.add Float.mul Float.abs].
  double_normal (1000 + - 0). cbn [Float.abs].
  double_zero (0.1 * 0). cbn [Float.add].
  replace (Rabs (1000 + - 0)) with 1000
    by (unfold Rabs; destruct (Rcase_abs _); lra).
  double_normal (1000 + 0). cbn [Float.mul].
  double_normal (1.1 * (1000 + 0)). cbn [Float.math_exp].
  replace (1.1 * (1000 + 0)) with 1100 by lra.
  destruct (Rlt_dec Float.DBL_MAX (exp 1100)) as [_ | Hn]; [reflexivity |].
  exfalso. apply Hn. exact exp_1100_overflows.
Qed.

Lemma first_phase_shift :
  Float.math_sin
    (Float.add (Float.mul (Float.Fin (nth 0 TONGUE_FREQUENCIES 0)) (Float.Fin 0))
       (Float.Fin (nth 0 TONGUE_PHASES 0)))
  = Ok (Float.Fin 0).
Proof.
  rewrite phase_0. cbn [nth TONGUE_FREQUENCIES Float.mul].
  double_zero (1 * 0). cbn [Float.add]. double_zero (0 + 0).
  cbn [Float.math_sin]. rewrite sin_0. reflexivity.
Qed.

Lemma coordinate_nth (x : HyperspacePoint.t) (l : nat) :
  (l < 6)%nat -> nth l (HyperspacePoint.to_vector x) 0 = coordinate x l.
Proof. intros H. each_dim H; reflexivity. Qed.

Lemma ideal_coordinate_nth (i : IdealState.t) (l : nat) :
  (l < 6)%nat -> nth l (IdealState.to_vector i) 0 = ideal_coordinate i l.
Proof. intros H. each_dim H; reflexivity. Qed.

(** Over exact reals [compute] on a constructed metric is the value that C1
    states. *)
Lemma compute_is_claimed (beta_base clamp_max : R)
    (ideal : option IdealState.t) (x : HyperspacePoint.t) (t : R)
    (a : option (list string)) :
  LanguesMetric.compute (LanguesMetric.init beta_base clamp_max ideal) x t a
  = claimed_compute beta_base clamp_max
      (LanguesMetric.ideal (LanguesMetric.init beta_base clamp_max ideal))
      x t a.
Proof.
  rewrite compute_as_sum. unfold claimed_compute.
  change (LanguesMetric.clamp_max (LanguesMetric.init beta_base clamp_max ideal))
    with clamp_max.
  f_equal. apply sum_over_ext.
  apply incl_Forall with (l1 := seq 0 6); [apply incl_filter |].
  eapply Forall_impl; [| apply range6].
  intros l Hl. cbv beta. rewrite metric_term_init by exact Hl.
  unfold spec_term, claimed_term, spec_shifted_d, spec_beta.
  rewrite coordinate_nth, ideal_coordinate_nth by exact Hl. reflexivity.
Qed.

(** C1 fails on the code, by the defect of C3.  With the default metric,
    the point [HyperspacePoint(time=1000.0)] and [t = 0], the value that the
    claim states is the clamp [1e6] (the sum is above it), but [compute]
    raises [OverflowError] in its first turn and returns no value. *)
Theorem compute_no_value_on_overflow :
  Float.compute LanguesMetric.default
    (HyperspacePoint.mk 1000 0 0 0.8 0.1 0.1) 0 None
  = Raise OverflowError
  /\ claimed_compute 1 1e6 IdealState.default
       (HyperspacePoint.mk 1000 0 0 0.8 0.1 0.1) 0 None
     = 1e6.
Proof.
  split.
  - unfold Float.compute. cbv zeta.
    change (seq 0 6) with (0%nat :: seq 1 5). cbn [CPython.for_each].
    unfold Float.compute_body at 1. cbn [truthy andb]. cbv zeta.
    rewrite first_phase_shift. cbn [bind].
    rewrite default_betas.
    cbn [nth Float.compute_deviations map seq HyperspacePoint.to_vector
         IdealState.to_vector LanguesMetric.default LanguesMetric.init
         LanguesMetric.ideal IdealState.default HyperspacePoint.time
         IdealState.time].
    rewrite first_exponential_overflows. reflexivity.
  - pose proof (compute_is_claimed 1 1e6 None
                  (HyperspacePoint.mk 1000 0 0 0.8 0.1 0.1) 0 None) as E.
    change (LanguesMetric.ideal (LanguesMetric.init 1 1e6 None))
      with IdealState.default in E.
    rewrite <- E. apply time_deviation_saturates.
    eval_dev. unfold Rabs. destruct (Rcase_abs _); lra.
Qed.

(** C5, as stated, fails: with the default metric, the point
    [HyperspacePoint(time=1000.0)] and [t = 0], [compute_gradient] raises
    [OverflowError] in its first turn and returns no vector. *)
Lemma compute_gradient_raises_on_overflow :
  Float.compute_gradient LanguesMetric.default
    (HyperspacePoint.mk 1000 0 0 0.8 0.1 0.1) 0
  = Raise OverflowError.
Proof.
  unfold Float.compute_gradient. cbv zeta.
  change (seq 0 6) with (0%nat :: seq 1 5). cbn [CPython.for_each].
  unfold Float.gradient_body at 1. cbv zeta.
  rewrite first_phase_shift. cbn [bind].
  rewrite default_betas.
  cbn [nth Float.compute_deviations map seq HyperspacePoint.to_vector
       IdealState.to_vector LanguesMetric.default LanguesMetric.init
       LanguesMetric.ideal IdealState.default HyperspacePoint.time
       IdealState.time].
  rewrite first_exponential_overflows. reflexivity.
Qed.

(** ** The gradient on doubles *)

Lemma geb_Fin (a b : R) :
  Float.geb (Float.Fin a) (Float.Fin b)
  = if Rge_dec a b then true else false.
Proof.
  cbn [Float.geb Float.ltb].
  destruct (Rlt_dec a b), (Rge_dec a b); try reflexivity; lra.
Qed.

(** C5, amended.  On a constructed metric [compute_gradient] evaluates the
    six dimensions in order, without tongue list and without clamp.  In
    each it computes [sin (omega_l * t + phi_l)], raising [ValueError] when
    the argument has overflowed to an infinity, then
    [exp (beta_l * (|x_l - mu_l| + 0.1 * sin ...))], raising [OverflowError]
    when that is above the largest double; when no dimension raises it
    returns the six entries [w_l * beta_l * exp (...) * sign], the sign
    being [1] when [x_l >= mu_l] and [-1] otherwise. *)
Theorem compute_gradient_entries_or_raise
    (beta_base clamp_max : R) (ideal : option IdealState.t)
    (x : HyperspacePoint.t) (t : R) :
  let m := LanguesMetric.init beta_base clamp_max ideal in
  let entry := double_gradient_entry beta_base (LanguesMetric.ideal m) x t in
  Float.compute_gradient m x t
  = (g0 <- entry 0%nat ;; g1 <- entry 1%nat ;; g2 <- entry 2%nat ;;
     g3 <- entry 3%nat ;; g4 <- entry 4%nat ;; g5 <- entry 5%nat ;;
     Ok [g0; g1; g2; g3; g4; g5]).
Proof.
  intros m entry. unfold entry, double_gradient_entry, double_exp_term,
    double_phase_shift, double_shifted_d, double_sign.
  unfold Float.compute_gradient. cbv zeta.
  cbn [CPython.for_each seq]. unfold Float.gradient_body. cbv zeta.
  rewrite !geb_Fin. unfold m. rewrite !betas_nth by lia.
  cbn [nth Float.compute_deviations map seq app
       HyperspacePoint.to_vector IdealState.to_vector coordinate
       ideal_coordinate].
  repeat match goal with
         | |- context [bind (Float.math_sin ?a) _] =>
             destruct (Float.math_sin a); cbn [bind]; [| reflexivity]
         | |- context [bind (Float.math_exp ?a) _] =>
             destruct (Float.math_exp a); cbn [bind]; [| reflexivity]
         end.
  repeat destruct (Rge_dec _ _); reflexivity.
Qed.

(** ** The order of doubles *)

Lemma to_double_cases (r : R) :
  (Float.DBL_MAX < r /\ Float.to_double r = Float.PInf)
  \/ (r < - Float.DBL_MAX /\ Float.to_double r = Float.NInf)
  \/ (- Float.DBL_HALF_MIN <= r <= Float.DBL_HALF_MIN
      /\ Float.to_double r = Float.Fin 0)
  \/ (Float.DBL_HALF_MIN < r <= Float.DBL_MAX
      /\ Float.to_double r = Float.Fin r)
  \/ (- Float.DBL_MAX <= r < - Float.DBL_HALF_MIN
      /\ Float.to_double r = Float.Fin r).
Proof.
  pose proof DBL_MAX_big. pose proof DBL_HALF_MIN_small.
  unfold Float.to_double.
  destruct (Rlt_dec Float.DBL_MAX r); [left; split; [lra | reflexivity] |].
  destruct (Rlt_dec r (- Float.DBL_MAX));
    [right; left; split; [lra | reflexivity] |].
  destruct (Rle_dec (Rabs r) Float.DBL_HALF_MIN) as [Ha | Ha];
    unfold Rabs in Ha; destruct (Rcase_abs r).
  - right; right; left. split; [lra | reflexivity].
  - right; right; left. split; [lra | reflexivity].
  - right; right; right; right. split; [lra | reflexivity].
  - right; right; right; left. split; [lra | reflexivity].
Qed.

Ltac double_cases r :=
  let H := fresh "H" in
  let E := fresh "E" in
  destruct (to_double_cases r)
    as [[H E] | [[H E] | [[H E] | [[H E] | [H E]]]]]; rewrite E.

Lemma to_double_mono (a b : R) :
  a <= b -> double_le (Float.to_double a) (Float.to_double b).
Proof.
  intros Hab. pose proof DBL_MAX_big. pose proof DBL_HALF_MIN_small.
  double_cases a; double_cases b; cbn [double_le]; lra || exact I.
Qed.

Lemma to_double_nonneg (r : R) :
  0 <= r -> double_nonneg (Float.to_double r).
Proof.
  intros Hr. pose proof DBL_MAX_big. pose proof DBL_HALF_MIN_small.
  double_cases r; cbn [double_nonneg]; lra || exact I.
Qed.

Lemma add_nonneg (x y : Float.float) :
  double_nonneg x -> double_nonneg y -> double_nonneg (Float.add x y).
Proof.
  destruct x as [a | | |], y as [b | | |]; cbn [double_nonneg Float.add];
    intros Hx Hy; try contradiction; try exact I.
  apply to_double_nonneg. lra.
Qed.

Lemma add_mono (x x' y y' : Float.float) :
  double_nonneg x -> double_nonneg y ->
  double_le x x' -> double_le y y' ->
  double_le (Float.add x y) (Float.add x' y').
Proof.
  destruct x as [a | | |], x' as [a' | | |], y as [b | | |],
    y' as [b' | | |];
    cbn [double_nonneg double_le Float.add];
    intros Hx Hy Hxx Hyy; try contradiction; try exact I.
  - apply to_double_mono. lra.
  - destruct (Float.to_double (a + b)) eqn:E; try exact I.
    pose proof (to_double_nonneg (a + b) ltac:(lra)) as N.
    rewrite E in N. exact N.
  - destruct (Float.to_double (a + b)) eqn:E; try exact I.
    pose proof (to_double_nonneg (a + b) ltac:(lra)) as N.
    rewrite E in N. exact N.
  - destruct (Float.to_double (a + b)) eqn:E; try exact I.
    pose proof (to_double_nonneg (a + b) ltac:(lra)) as N.
    rewrite E in N. exact N.
Qed.

(** Adding a finite number is monotone on the non-negative doubles. *)
Lemma add_finite_mono (x x' : Float.float) (c : R) :
  double_nonneg x -> double_le x x' ->
  double_le (Float.add x (Float.Fin c)) (Float.add x' (Float.Fin c)).
Proof.
  destruct x as [a | | |], x' as [a' | | |];
    cbn [double_nonneg double_le Float.add];
    intros Hx Hxx; try contradiction; try exact I.
  - apply to_double_mono. lra.
  - pose proof DBL_MAX_big. pose proof DBL_HALF_MIN_small.
    double_cases (a + c); exact I.
Qed.

Lemma add_finite_not_nan (x : Float.float) (c : R) :
  double_nonneg x -> Float.add x (Float.Fin c) <> Float.NaN.
Proof.
  destruct x as [a | | |]; cbn [double_nonneg Float.add]; intros Hx;
    try contradiction; try discriminate.
  double_cases (a + c); discriminate.
Qed.

Lemma mul_positive_mono (c : R) (x y : Float.float) :
  0 < c -> double_le x y ->
  double_le (Float.mul (Float.Fin c) x) (Float.mul (Float.Fin c) y).
Proof.
  intros Hc.
  assert (S : forall inf, Float.scale_inf inf c = inf).
  { intros inf. unfold Float.scale_inf.
    destruct (Req_dec_T c 0); [lra |].
    destruct (Rlt_dec 0 c); [reflexivity | lra]. }
  destruct x as [a | | |], y as [b | | |];
    cbn [double_le Float.mul]; intros Hxy; try contradiction;
    rewrite ?S; cbn [double_le]; try exact I.
  - apply to_double_mono. apply Rmult_le_compat_l; lra.
  - double_cases (c * a); exact I.
  - double_cases (c * b); exact I.
Qed.

Lemma exp_result_nonneg (x e : Float.float) :
  x <> Float.NaN -> Float.math_exp x = Ok e -> double_nonneg e.
Proof.
  destruct x as [r | | |]; cbn [Float.math_exp]; intros Hx He.
  - destruct (Rlt_dec _ _); [discriminate |]. injection He as <-.
    apply to_double_nonneg. left. apply exp_pos.
  - injection He as <-. exact I.
  - injection He as <-. cbn. lra.
  - contradiction.
Qed.

Lemma exp_result_mono (x y ex ey : Float.float) :
  double_le x y ->
  Float.math_exp x = Ok ex -> Float.math_exp y = Ok ey -> double_le ex ey.
Proof.
  intros Hxy Hx Hy.
  assert (Nx : x <> Float.NaN) by (destruct x; cbn in Hxy; congruence).
  assert (Ny : y <> Float.NaN)
    by (destruct x, y; cbn in Hxy; congruence || contradiction).
  pose proof (exp_result_nonneg x ex Nx Hx) as Px.
  pose proof (exp_result_nonneg y ey Ny Hy) as Py.
  destruct x as [a | | |], y as [b | | |];
    cbn [double_le Float.math_exp] in Hxy, Hx, Hy; try contradiction;
    repeat match goal with
           | H : (if Rlt_dec ?u ?v then _ else _) = Ok _ |- _ =>
               destruct (Rlt_dec u v); [discriminate H |]
           | H : Ok _ = Ok _ |- _ => injection H as <-
           end.
  - apply to_double_mono, exp_monotone, Hxy.
  - destruct (Float.to_double (exp a)); cbn in *; exact I || contradiction.
  - exact I.
  - exact Py.
  - exact I.
  - cbn. lra.
Qed.

Lemma min_finite_mono (x y : Float.float) (c : R) :
  double_le x y ->
  double_le (Float.min x (Float.Fin c)) (Float.min y (Float.Fin c)).
Proof.
  destruct x as [a | | |], y as [b | | |];
    unfold Float.min; cbn [double_le Float.ltb]; intros Hxy;
    try contradiction;
    repeat destruct (Rlt_dec _ _); cbn [double_le]; lra || exact I.
Qed.

(** The deviation [|a - mu|] on doubles is monotone in the real one. *)
Lemma deviation_mono (a b mu : R) :
  Rabs (a - mu) <= Rabs (b - mu) ->
  double_nonneg (Float.abs (Float.sub (Float.Fin a) (Float.Fin mu)))
  /\ double_le (Float.abs (Float.sub (Float.Fin a) (Float.Fin mu)))
       (Float.abs (Float.sub (Float.Fin b) (Float.Fin mu))).
Proof.
  intros H. unfold Float.sub. cbn [Float.neg Float.add].
  replace (a + - mu) with (a - mu) by ring.
  replace (b + - mu) with (b - mu) by ring.
  pose proof DBL_MAX_big. pose proof DBL_HALF_MIN_small.
  unfold Rabs in H.
  destruct (Rcase_abs (a - mu)), (Rcase_abs (b - mu));
    double_cases (a - mu); double_cases (b - mu);
    cbn [Float.abs double_le double_nonneg]; unfold Rabs;
    repeat destruct (Rcase_abs _); split; lra || exact I.
Qed.

Lemma mul_positive_nonneg (c : R) (x : Float.float) :
  0 < c -> double_nonneg x -> double_nonneg (Float.mul (Float.Fin c) x).
Proof.
  intros Hc. destruct x as [a | | |]; cbn [double_nonneg Float.mul];
    intros Hx; try contradiction.
  - apply to_double_nonneg. apply Rmult_le_pos; lra.
  - unfold Float.scale_inf. destruct (Req_dec_T c 0); [lra |].
    destruct (Rlt_dec 0 c); [exact I | lra].
Qed.

Lemma mul_positive_not_nan (c : R) (x : Float.float) :
  0 < c -> x <> Float.NaN -> Float.mul (Float.Fin c) x <> Float.NaN.
Proof.
  intros Hc. destruct x as [a | | |]; cbn [Float.mul]; intros Hx;
    try contradiction; unfold Float.scale_inf;
    try (destruct (Req_dec_T c 0); [lra |];
         destruct (Rlt_dec 0 c); [discriminate | lra]).
  double_cases (c * a); discriminate.
Qed.

(** A phase term that [math.sin] returns is a finite number, and a tenth of
    it is one too. *)
Lemma phase_shift_finite (w t p : R) (ps : Float.float) :
  Float.math_sin
    (Float.add (Float.mul (Float.Fin w) (Float.Fin t)) (Float.Fin p)) = Ok ps ->
  exists c, Float.mul (Float.Fin 0.1) ps = Float.Fin c.
Proof.
  cbn [Float.mul]. intros H.
  assert (E : exists s, ps = Float.Fin (sin s)).
  { destruct (Float.to_double (w * t)) as [r | | |] eqn:Ew;
      cbn [Float.add] in H.
    - destruct (Float.to_double (r + p)) as [r' | | |] eqn:Er;
        cbn [Float.math_sin] in H; try discriminate H.
      + injection H as <-. eauto.
      + exfalso. revert Er. double_cases (r + p); discriminate.
    - discriminate H.
    - discriminate H.
    - exfalso. revert Ew. double_cases (w * t); discriminate. }
  destruct E as [s ->]. cbn [Float.mul].
  pose proof (SIN_bound s). pose proof DBL_MAX_big.
  double_cases (0.1 * sin s); eauto; lra.
Qed.

Lemma double_deviations_nth (m : LanguesMetric.t) (x : HyperspacePoint.t)
    (l : nat) :
  (l < 6)%nat ->
  nth l (Float.compute_deviations m x) (Float.Fin 0)
  = Float.abs
      (Float.sub (Float.Fin (coordinate x l))
         (Float.Fin (ideal_coordinate (LanguesMetric.ideal m) l))).
Proof. intros H. each_dim H; reflexivity. Qed.

(** ** Monotonicity of [compute] on doubles *)

Section DoubleMonotone.

Variables (m : LanguesMetric.t) (x y : HyperspacePoint.t) (t : R).
Variable a : option (list string).

Hypothesis Hbeta :
  forall l, (l < 6)%nat -> 0 < nth l (LanguesMetric.betas m) 0.
Hypothesis Hdev :
  forall l, (l < 6)%nat ->
    Rabs (coordinate x l - ideal_coordinate (LanguesMetric.ideal m) l)
    <= Rabs (coordinate y l - ideal_coordinate (LanguesMetric.ideal m) l).

Lemma double_body_mono (L L' r r' : Float.float) (l : nat) :
  (l < 6)%nat ->
  double_nonneg L -> double_le L L' ->
  Float.compute_body m (Float.compute_deviations m x) t a L l = Ok r ->
  Float.compute_body m (Float.compute_deviations m y) t a L' l = Ok r' ->
  double_nonneg r /\ double_le r r'.
Proof.
  intros Hl HL HLL. unfold Float.compute_body.
  destruct (truthy a && negb (contains (nth l TONGUES EmptyString) a)).
  - intros [= <-] [= <-]. split; assumption.
  - cbv zeta. rewrite !double_deviations_nth by exact Hl.
    destruct (Float.math_sin _) as [ps |] eqn:Es; cbn [bind];
      [| discriminate].
    destruct (phase_shift_finite _ _ _ _ Es) as [c Ec]. rewrite Ec.
    destruct (deviation_mono _ _ _ (Hdev l Hl)) as [Nd Ld].
    set (d := Float.abs (Float.sub (Float.Fin (coordinate x l)) _)) in *.
    set (d' := Float.abs (Float.sub (Float.Fin (coordinate y l)) _)) in *.
    pose proof (Hbeta l Hl) as Hb. pose proof (weight_pos l Hl) as Hw.
    set (beta := nth l (LanguesMetric.betas m) 0) in *.
    set (w := nth l TONGUE_WEIGHTS 0) in *.
    assert (Ls : double_le (Float.add d (Float.Fin c))
                   (Float.add d' (Float.Fin c)))
      by (apply add_finite_mono; assumption).
    assert (Ns : Float.add d (Float.Fin c) <> Float.NaN)
      by (apply add_finite_not_nan; assumption).
    destruct (Float.math_exp (Float.mul (Float.Fin beta)
                                (Float.add d (Float.Fin c))))
      as [e |] eqn:Ee; cbn [bind]; [| discriminate].
    destruct (Float.math_exp (Float.mul (Float.Fin beta)
                                (Float.add d' (Float.Fin c))))
      as [e' |] eqn:Ee'; cbn [bind]; [| discriminate].
    intros [= <-] [= <-].
    assert (Ne : double_nonneg e).
    { apply (exp_result_nonneg _ _ (mul_positive_not_nan _ _ Hb Ns) Ee). }
    assert (Le : double_le e e').
    { apply (exp_result_mono _ _ _ _
               (mul_positive_mono beta _ _ Hb Ls) Ee Ee'). }
    split.
    + apply add_nonneg; [exact HL |].
      apply mul_positive_nonneg; assumption.
    + apply add_mono; [exact HL | | exact HLL |].
      * apply mul_positive_nonneg; assumption.
      * apply mul_positive_mono; assumption.
Qed.

Lemma double_loop_mono (ls : list nat) :
  Forall (fun l => (l < 6)%nat) ls ->
  forall L L' r r',
    double_nonneg L -> double_le L L' ->
    CPython.for_each
      (Float.compute_body m (Float.compute_deviations m x) t a) ls L = Ok r ->
    CPython.for_each
      (Float.compute_body m (Float.compute_deviations m y) t a) ls L' = Ok r' ->
    double_le r r'.
Proof.
  induction 1 as [| l ls Hl _ IH]; intros L L' r r' HL HLL.
  - cbn. intros [= <-] [= <-]. exact HLL.
  - cbn [CPython.for_each].
    destruct (Float.compute_body m (Float.compute_deviations m x) t a L l)
      as [L1 |] eqn:E1; cbn [bind]; [| discriminate].
    destruct (Float.compute_body m (Float.compute_deviations m y) t a L' l)
      as [L1' |] eqn:E1'; cbn [bind]; [| discriminate].
    destruct (double_body_mono L L' L1 L1' l Hl HL HLL E1 E1') as [N1 LL1].
    apply IH; assumption.
Qed.

(** Whenever [compute] returns at both points, the point that deviates no
    less in every dimension costs no less. *)
Lemma double_compute_mono :
  returned_le (Float.compute m x t a) (Float.compute m y t a).
Proof.
  unfold Float.compute. cbv zeta.
  destruct (CPython.for_each
              (Float.compute_body m (Float.compute_deviations m x) t a)
              (seq 0 6) (Float.Fin 0)) as [Lx |] eqn:Ex; cbn [bind];
    [| exact I].
  destruct (CPython.for_each
              (Float.compute_body m (Float.compute_deviations m y) t a)
              (seq 0 6) (Float.Fin 0)) as [Ly |] eqn:Ey; cbn [bind];
    [| exact I].
  cbn [returned_le]. apply min_finite_mono.
  apply (double_loop_mono (seq 0 6) range6 (Float.Fin 0) (Float.Fin 0));
    try assumption; cbn; lra.
Qed.

End DoubleMonotone.

(** ** Where the doubles carry the exact value *)

Lemma to_double_of_normal (r : R) : normal r -> Float.to_double r = Float.Fin r.
Proof.
  intros [-> | [Hlo Hhi]]; [apply to_double_0 | apply to_double_exact; assumption].
Qed.

Lemma normal_positive (r : R) :
  Float.DBL_HALF_MIN < r -> r <= Float.DBL_MAX -> normal r.
Proof.
  intros Hlo Hhi. right. pose proof DBL_HALF_MIN_small.
  rewrite Rabs_right by lra. split; assumption.
Qed.

Lemma metric_term_coordinates (m : LanguesMetric.t) (x : HyperspacePoint.t)
    (t : R) (l : nat) :
  (l < 6)%nat ->
  metric_term m x t l
  = nth l TONGUE_WEIGHTS 0
    * exp (nth l (LanguesMetric.betas m) 0
           * (Rabs (coordinate x l
                    - ideal_coordinate (LanguesMetric.ideal m) l)
              + 0.1 * sin (nth l TONGUE_FREQUENCIES 0 * t
                           + nth l TONGUE_PHASES 0))).
Proof.
  intros Hl. unfold metric_term, spec_shifted_d.
  rewrite coordinate_nth, ideal_coordinate_nth by exact Hl. reflexivity.
Qed.

Section DoubleExact.

Variables (m : LanguesMetric.t) (x : HyperspacePoint.t) (t : R).
Variable a : option (list string).

Lemma double_body_exact (L : R) (l : nat) :
  (l < 6)%nat ->
  (excluded a l = false -> exact_dimension m x t l) ->
  normal L -> 0 <= L ->
  (excluded a l = false -> L + metric_term m x t l <= Float.DBL_MAX) ->
  Float.compute_body m (Float.compute_deviations m x) t a (Float.Fin L) l
  = Ok (Float.Fin
          (LanguesMetric.compute_body m (LanguesMetric.compute_deviations m x)
             t a L l)).
Proof.
  intros Hl Hex HL HL0 Hsum.
  rewrite compute_body_spec by exact Hl.
  unfold Float.compute_body. rewrite skip_is_excluded.
  destruct (excluded a l); [reflexivity |].
  specialize (Hex eq_refl). specialize (Hsum eq_refl).
  rewrite metric_term_coordinates in * by exact Hl.
  destruct Hex as (Nd & Nwt & Narg & Nc & Nsh & Nb & [Helo Hehi] & Hterm).
  cbv zeta in *. rewrite double_deviations_nth by exact Hl.
  unfold Float.sub. cbn [Float.neg Float.add Float.mul].
  replace (coordinate x l + - ideal_coordinate (LanguesMetric.ideal m) l)
    with (coordinate x l - ideal_coordinate (LanguesMetric.ideal m) l) by ring.
  rewrite (to_double_of_normal _ Nd), (to_double_of_normal _ Nwt).
  cbn [Float.abs Float.add]. rewrite (to_double_of_normal _ Narg).
  cbn [Float.math_sin bind Float.mul].
  rewrite (to_double_of_normal _ Nc). cbn [Float.add].
  rewrite (to_double_of_normal _ Nsh). cbn [Float.mul].
  rewrite (to_double_of_normal _ Nb). cbn [Float.math_exp].
  destruct (Rlt_dec Float.DBL_MAX _) as [Hover | _]; [lra |].
  rewrite (to_double_of_normal _ (normal_positive _ Helo Hehi)).
  cbn [bind Float.mul Float.add].
  pose proof DBL_HALF_MIN_small as Hm.
  rewrite (to_double_of_normal (_ * exp _)) by (apply normal_positive; lra).
  rewrite to_double_of_normal by (apply normal_positive; lra).
  reflexivity.
Qed.

Lemma double_loop_exact (ls : list nat) :
  Forall (fun l => (l < 6)%nat) ls ->
  Forall (fun l => excluded a l = false -> exact_dimension m x t l) ls ->
  forall L,
    normal L -> 0 <= L ->
    L + sum_over (metric_term m x t)
          (filter (fun l => negb (excluded a l)) ls) <= Float.DBL_MAX ->
    CPython.for_each
      (Float.compute_body m (Float.compute_deviations m x) t a) ls
      (Float.Fin L)
    = Ok (Float.Fin
            (fold_left
               (LanguesMetric.compute_body m
                  (LanguesMetric.compute_deviations m x) t a) ls L)).
Proof.
  induction 1 as [| l ls Hl Hls IH]; intros Hex L HL HL0 Hsum;
    [reflexivity |].
  inversion Hex as [| ? ? Hexl Hexls]; subst.
  cbn [CPython.for_each fold_left].
  assert (Hrest : 0 <= sum_over (metric_term m x t)
                         (filter (fun l => negb (excluded a l)) ls)).
  { apply sum_over_nonneg.
    apply incl_Forall with (l1 := ls); [apply incl_filter |].
    eapply Forall_impl; [| exact Hls].
    intros k Hk. apply metric_term_pos. exact Hk. }
  pose proof (metric_term_pos m x t l Hl) as Hpos.
  cbn [filter] in Hsum.
  rewrite double_body_exact; try assumption.
  2:{ intros E. rewrite E in Hsum. cbn [negb sum_over fold_right] in Hsum.
      fold (sum_over (metric_term m x t)
              (filter (fun l => negb (excluded a l)) ls)) in Hsum. lra. }
  cbn [bind]. rewrite compute_body_spec by exact Hl.
  destruct (excluded a l) eqn:E; cbn [negb] in Hsum.
  - apply IH; assumption.
  - cbn [sum_over fold_right] in Hsum.
    fold (sum_over (metric_term m x t)
            (filter (fun l => negb (excluded a l)) ls)) in Hsum.
    destruct (Hexl eq_refl) as (_ & _ & _ & _ & _ & _ & _ & Hterm).
    rewrite <- metric_term_coordinates in Hterm by exact Hl.
    apply IH; try assumption; try lra.
    apply normal_positive; lra.
Qed.

(** When every intermediate result of the dimensions that are summed is
    held as it is and the sum is in range, [compute] on doubles returns the
    value of the exact [compute]. *)
Lemma double_compute_exact :
  (forall l, (l < 6)%nat -> excluded a l = false -> exact_dimension m x t l) ->
  sum_over (metric_term m x t)
    (filter (fun l => negb (excluded a l)) (seq 0 6)) <= Float.DBL_MAX ->
  Float.compute m x t a = Ok (Float.Fin (LanguesMetric.compute m x t a)).
Proof.
  intros Hex Hsum. unfold Float.compute, LanguesMetric.compute. cbv zeta.
  rewrite double_loop_exact; try apply range6; try lra.
  - cbn [bind]. unfold Float.min, Rmin. cbn [Float.ltb].
    destruct (Rlt_dec _ _), (Rle_dec _ _); try reflexivity; lra.
  - eapply Forall_impl; [| apply range6]. intros l Hl. apply Hex, Hl.
  - left. reflexivity.
Qed.

End DoubleExact.

(** ** The default metric at [t = 0] on moderate deviations *)

Lemma threshold_bounds : Float.DBL_HALF_MIN < 0.001 /\ 1000 <= Float.DBL_MAX.
Proof.
  pose proof DBL_MAX_big. pose proof DBL_HALF_MIN_small. lra.
Qed.

Lemma normal_of_bounds (r : R) :
  0.001 <= Rabs r <= 1000 -> normal r.
Proof.
  intros [Hlo Hhi]. pose proof threshold_bounds. right. lra.
Qed.

Lemma PI_bounds : 3 < PI <= 4.
Proof. pose proof PI2_3_2. pose proof PI_4. lra. Qed.

Lemma phase_normal (l : nat) : (l < 6)%nat -> normal (nth l TONGUE_PHASES 0).
Proof.
  intros H. pose proof PI_bounds.
  each_dim H;
    [ rewrite phase_0; left; reflexivity
    | rewrite phase_1 | rewrite phase_2 | rewrite phase_3
    | rewrite phase_4 | rewrite phase_5 ];
    apply normal_of_bounds; rewrite Rabs_right by lra; lra.
Qed.

Lemma phase_shift_values (l : nat) :
  (l < 6)%nat ->
  let s := 0.1 * sin (nth l TONGUE_PHASES 0) in
  (s = 0 \/ 0.08 <= Rabs s) /\ -0.09 <= s <= 0.09.
Proof.
  intros H s. unfold s. rewrite sin_phase_nth. pose proof sqrt3_bounds.
  each_dim H; cbn [nth]; split; try lra;
    try (left; lra);
    right; unfold Rabs; destruct (Rcase_abs _); lra.
Qed.

Lemma exp_moderate (y : R) :
  -1 <= y <= 111 -> 0.3 <= exp y <= 3 ^ 111.
Proof.
  intros [Hlo Hhi]. split.
  - pose proof (exp_monotone _ _ Hlo) as H.
    pose proof exp_le_3 as H3. pose proof (exp_pos (-1)) as Hp.
    assert (Hinv : exp (-1) * exp 1 = 1)
      by (rewrite <- exp_plus; replace (-1 + 1) with 0 by lra; apply exp_0).
    nra.
  - apply Rle_trans with (1 := exp_monotone _ _ Hhi).
    replace 111 with (INR 111 * 1)
      by (rewrite Rmult_1_r, INR_IZR_INZ; reflexivity).
    rewrite exp_mult_nat. apply pow_incr.
    split; [left; apply exp_pos | exact exp_le_3].
Qed.

Lemma pow3_111_small : 100 * 3 ^ 111 <= Float.DBL_MAX.
Proof. unfold Float.DBL_MAX, CPython.DBL_MAX. lra. Qed.

Lemma weight_range (l : nat) : (l < 6)%nat -> 1 <= nth l TONGUE_WEIGHTS 0 <= 12.
Proof.
  intros H. pose proof PHI_bounds. pose proof PHI_pow2. pose proof PHI_pow3.
  pose proof PHI_pow4. pose proof PHI_pow5.
  rewrite weight_nth by exact H. each_dim H; try lra; cbn [pow]; lra.
Qed.

Section Moderate.

Variable x : HyperspacePoint.t.

Hypothesis Hmoderate :
  forall l, (l < 6)%nat ->
    coordinate x l = ideal_coordinate IdealState.default l
    \/ 0.1 <= Rabs (coordinate x l - ideal_coordinate IdealState.default l)
       <= 100.

Lemma moderate_dimension (l : nat) :
  (l < 6)%nat ->
  exact_dimension LanguesMetric.default x 0 l
  /\ metric_term LanguesMetric.default x 0 l <= 12 * 3 ^ 111.
Proof.
  intros Hl. rewrite metric_term_coordinates by exact Hl.
  unfold exact_dimension.
  change (LanguesMetric.ideal LanguesMetric.default) with IdealState.default.
  cbv zeta.
  replace (nth l TONGUE_FREQUENCIES 0 * 0 + nth l TONGUE_PHASES 0)
    with (nth l TONGUE_PHASES 0) by ring.
  destruct (phase_shift_values l Hl) as [Ns Bs].
  pose proof (default_beta_range l Hl) as Hb.
  pose proof (weight_range l Hl) as Hw.
  set (s := 0.1 * sin (nth l TONGUE_PHASES 0)) in *.
  set (beta := nth l (LanguesMetric.betas LanguesMetric.default) 0) in *.
  set (w := nth l TONGUE_WEIGHTS 0) in *.
  set (d := coordinate x l - ideal_coordinate IdealState.default l).
  assert (Hd : d = 0 \/ 0.1 <= Rabs d <= 100).
  { destruct (Hmoderate l Hl) as [E | B]; [left; unfold d; lra | right; exact B]. }
  assert (Nd : normal d).
  { destruct Hd as [-> | Hd]; [left; reflexivity |].
    apply normal_of_bounds. lra. }
  assert (Hsh : (Rabs d + s = 0 \/ 0.01 <= Rabs (Rabs d + s))
                /\ -0.09 <= Rabs d + s <= 100.09).
  { destruct Hd as [-> | Hd].
    - rewrite Rabs_R0, Rplus_0_l. split; [| lra].
      destruct Ns as [Ns | Ns]; [left; exact Ns | right; lra].
    - split; [| lra]. right. rewrite Rabs_right by lra. lra. }
  destruct Hsh as [Zsh Bsh].
  assert (Ash : Rabs (Rabs d + s) <= 100.09)
    by (unfold Rabs at 1; destruct (Rcase_abs _); lra).
  assert (Nsh : normal (Rabs d + s)).
  { destruct Zsh as [E | B]; [left; exact E | apply normal_of_bounds; lra]. }
  assert (Nb : normal (beta * (Rabs d + s))).
  { destruct Zsh as [E | B]; [left; rewrite E; ring |].
    apply normal_of_bounds.
    rewrite Rabs_mult, (Rabs_right beta) by lra. split; nra. }
  assert (Hrange : -1 <= beta * (Rabs d + s) <= 111) by nra.
  pose proof (exp_moderate _ Hrange) as He.
  assert (Ns' : normal s).
  { destruct Ns as [E | B]; [left; exact E |].
    apply normal_of_bounds. split; [lra |].
    unfold Rabs; destruct (Rcase_abs _); lra. }
  pose proof threshold_bounds as [Hlo Hhi].
  pose proof pow3_111_small as Hbig.
  set (e := exp (beta * (Rabs d + s))) in *.
  set (B := 3 ^ 111) in *.
  assert (Hwe : 0.3 <= w * e <= 12 * B) by nra.
  split; [| apply Hwe].
  split; [exact Nd |].
  split; [left; ring |].
  split; [apply phase_normal; exact Hl |].
  split; [exact Ns' |].
  split; [exact Nsh |].
  split; [exact Nb |].
  split; lra.
Qed.

(** On a point whose every field equals the ideal one or deviates from it
    by between 0.1 and 100, the doubles of [compute] carry the exact
    value for the default metric at [t = 0]. *)
Lemma moderate_compute_exact :
  Float.compute LanguesMetric.default x 0 None
  = Ok (Float.Fin (LanguesMetric.compute LanguesMetric.default x 0 None)).
Proof.
  apply double_compute_exact.
  - intros l Hl _. apply moderate_dimension. exact Hl.
  - change (filter (fun l => negb (excluded None l)) (seq 0 6))
      with (seq 0 6).
    rewrite sum_over_seq6.
    pose proof (proj2 (moderate_dimension 0 ltac:(lia))).
    pose proof (proj2 (moderate_dimension 1 ltac:(lia))).
    pose proof (proj2 (moderate_dimension 2 ltac:(lia))).
    pose proof (proj2 (moderate_dimension 3 ltac:(lia))).
    pose proof (proj2 (moderate_dimension 4 ltac:(lia))).
    pose proof (proj2 (moderate_dimension 5 ltac:(lia))).
    pose proof pow3_111_small. assert (0 < 3 ^ 111) by (apply pow_lt; lra).
    set (B := 3 ^ 111) in *. lra.
Qed.

End Moderate.

(** ** Monotonicity in one dimension *)


Lemma ideal_point_moderate (l : nat) :
  (l < 6)%nat ->
  coordinate ideal_point l = ideal_coordinate IdealState.default l
  \/ 0.1 <= Rabs (coordinate ideal_point l
                  - ideal_coordinate IdealState.default l) <= 100.
Proof. intros H. left. each_dim H; reflexivity. Qed.

Lemma bump_moderate (dim : nat) (delta : R) (l : nat) :
  (dim < 6)%nat -> 0.1 <= delta <= 100 -> (l < 6)%nat ->
  coordinate (bump dim delta) l = ideal_coordinate IdealState.default l
  \/ 0.1 <= Rabs (coordinate (bump dim delta) l
                  - ideal_coordinate IdealState.default l) <= 100.
Proof.
  intros Hdim Hdelta Hl.
  destruct (Nat.eq_dec l dim) as [-> | Hne].
  - right. each_dim Hdim; cbn [bump coordinate ideal_coordinate
      IdealState.default HyperspacePoint.time HyperspacePoint.intent
      HyperspacePoint.policy HyperspacePoint.trust HyperspacePoint.risk
      HyperspacePoint.entropy IdealState.time IdealState.intent
      IdealState.policy IdealState.trust IdealState.risk IdealState.entropy];
      rewrite Rabs_right by lra; lra.
  - left. each_dim Hdim; each_dim Hl; try contradiction; reflexivity.
Qed.



(** ** The distance on doubles *)

Lemma to_double_opp (r : R) :
  Float.to_double (- r) = Float.neg (Float.to_double r).
Proof.
  unfold Float.to_double. rewrite Rabs_Ropp.
  pose proof DBL_MAX_big.
  destruct (Rlt_dec Float.DBL_MAX (- r)), (Rlt_dec Float.DBL_MAX r),
    (Rlt_dec (- r) (- Float.DBL_MAX)), (Rlt_dec r (- Float.DBL_MAX));
    try lra; try reflexivity;
    destruct (Rle_dec (Rabs r) Float.DBL_HALF_MIN); cbn [Float.neg];
    try reflexivity.
  f_equal. lra.
Qed.

Lemma pow2_neg (x : Float.float) : Float.pow2 (Float.neg x) = Float.pow2 x.
Proof.
  destruct x as [r | | |]; cbn [Float.neg Float.pow2]; try reflexivity.
  replace (- r * - r) with (r * r) by ring. reflexivity.
Qed.

Lemma sub_swap (u v : R) :
  Float.sub (Float.Fin v) (Float.Fin u)
  = Float.neg (Float.sub (Float.Fin u) (Float.Fin v)).
Proof.
  unfold Float.sub. cbn [Float.neg Float.add].
  rewrite <- to_double_opp. f_equal. ring.
Qed.

Lemma distance_body_sym (v1 v2 : list R) (d_sq : Float.float) (l : nat) :
  Float.langues_distance_body v1 v2 d_sq l
  = Float.langues_distance_body v2 v1 d_sq l.
Proof.
  unfold Float.langues_distance_body. cbv zeta.
  rewrite (sub_swap (nth l v1 0) (nth l v2 0)), pow2_neg. reflexivity.
Qed.

Lemma for_each_ext {A B : Type} (f g : A -> B -> result A) (ls : list B) :
  (forall acc l, f acc l = g acc l) ->
  forall acc, CPython.for_each f ls acc = CPython.for_each g ls acc.
Proof.
  intros H. induction ls as [| l ls IH]; intros acc; [reflexivity |].
  cbn [CPython.for_each]. rewrite H.
  destruct (g acc l); cbn [bind]; [apply IH | reflexivity].
Qed.

Lemma distance_sym (a b : HyperspacePoint.t)
    (m m' : option LanguesMetric.t) :
  Float.langues_distance a b m = Float.langues_distance b a m'.
Proof.
  unfold Float.langues_distance. cbv zeta.
  rewrite (for_each_ext _ _ _ (distance_body_sym _ _)). reflexivity.
Qed.

Lemma square_thresholds :
  1e-162 * 1e-162 <= Float.DBL_HALF_MIN
  /\ Float.DBL_HALF_MIN <= 1e-161 * 1e-161.
Proof. unfold Float.DBL_HALF_MIN. lra. Qed.

(** A difference below [1e-162] has a square that underflows to zero. *)
Lemma distance_body_close (v1 v2 : list R) (l : nat) :
  Rabs (nth l v1 0 - nth l v2 0) <= 1e-162 ->
  Float.langues_distance_body v1 v2 (Float.Fin 0) l = Ok (Float.Fin 0).
Proof.
  intros Hc. unfold Float.langues_distance_body. cbv zeta.
  unfold Float.sub. cbn [Float.neg Float.add].
  replace (nth l v1 0 + - nth l v2 0) with (nth l v1 0 - nth l v2 0) by ring.
  set (d := nth l v1 0 - nth l v2 0) in *.
  pose proof square_thresholds as [Hs _].
  pose proof threshold_bounds as [Hlo Hhi].
  pose proof DBL_HALF_MIN_small as [Hpos _].
  assert (Hsq : forall r, Rabs r <= 1e-162 ->
            Float.pow2 (Float.Fin r) = Ok (Float.Fin 0)).
  { intros r Hr. cbn [Float.pow2].
    assert (Hrr : 0 <= r * r <= Float.DBL_HALF_MIN).
    { split; [nra |].
      apply Rle_trans with (2 := Hs).
      replace (r * r) with (Rabs r * Rabs r)
        by (unfold Rabs; destruct (Rcase_abs r); ring).
      pose proof (Rabs_pos r). nra. }
    destruct (Rlt_dec Float.DBL_MAX (r * r)); [lra |].
    rewrite to_double_flush; [reflexivity |].
    rewrite Rabs_right by lra. lra. }
  assert (Hd : exists r, Float.to_double d = Float.Fin r /\ Rabs r <= 1e-162).
  { unfold Float.to_double.
    assert (Hdd : -1e-162 <= d <= 1e-162)
      by (unfold Rabs in Hc; destruct (Rcase_abs d); lra).
    destruct (Rlt_dec Float.DBL_MAX d); [lra |].
    destruct (Rlt_dec d (- Float.DBL_MAX)); [lra |].
    destruct (Rle_dec (Rabs d) Float.DBL_HALF_MIN).
    - exists 0. split; [reflexivity | rewrite Rabs_R0; lra].
    - exists d. split; [reflexivity | exact Hc]. }
  destruct Hd as (r & -> & Hr). rewrite (Hsq r Hr). cbn [bind Float.mul].
  rewrite Rmult_0_r, to_double_0. cbn [Float.add].
  rewrite Rplus_0_r, to_double_0. reflexivity.
Qed.

Lemma distance_loop_close (v1 v2 : list R) (ls : list nat) :
  Forall (fun l => Rabs (nth l v1 0 - nth l v2 0) <= 1e-162) ls ->
  CPython.for_each (Float.langues_distance_body v1 v2) ls (Float.Fin 0)
  = Ok (Float.Fin 0).
Proof.
  induction 1 as [| l ls Hl _ IH]; [reflexivity |].
  cbn [CPython.for_each]. rewrite distance_body_close by exact Hl.
  cbn [bind]. exact IH.
Qed.

Lemma sqrt_double_0 : Float.math_sqrt (Float.Fin 0) = Ok (Float.Fin 0).
Proof.
  cbn [Float.math_sqrt]. destruct (Rlt_dec 0 0); [lra |]. rewrite sqrt_0.
  reflexivity.
Qed.

Lemma distance_close (a b : HyperspacePoint.t) (m : option LanguesMetric.t) :
  (forall l, (l < 6)%nat -> Rabs (coordinate a l - coordinate b l) <= 1e-162) ->
  Float.langues_distance a b m = Ok (Float.Fin 0).
Proof.
  intros Hc. unfold Float.langues_distance. cbv zeta.
  rewrite distance_loop_close; [exact sqrt_double_0 |].
  eapply Forall_impl; [| apply range6].
  intros l Hl. cbv beta. rewrite !coordinate_nth by exact Hl. apply Hc, Hl.
Qed.

(** The doubles that the accumulator of the distance takes: zero, a value
    above the underflow threshold, or the positive infinity. *)
Lemma to_double_quantum (r : R) :
  0 <= r ->
  Float.to_double r = Float.PInf
  \/ (r <= Float.DBL_HALF_MIN /\ Float.to_double r = Float.Fin 0)
  \/ (Float.DBL_HALF_MIN < r /\ Float.to_double r = Float.Fin r).
Proof.
  intros Hr. unfold Float.to_double. pose proof DBL_MAX_big.
  destruct (Rlt_dec Float.DBL_MAX r); [left; reflexivity |].
  destruct (Rlt_dec r (- Float.DBL_MAX)); [lra |].
  rewrite Rabs_right by lra.
  destruct (Rle_dec r Float.DBL_HALF_MIN);
    [right; left | right; right]; split; lra || reflexivity.
Qed.

Lemma distance_body_shape (v1 v2 : list R) (A : R) (l : nat)
    (r : Float.float) :
  (l < 6)%nat ->
  A = 0 \/ Float.DBL_HALF_MIN < A ->
  Float.langues_distance_body v1 v2 (Float.Fin A) l = Ok r ->
  r = Float.PInf
  \/ exists A', r = Float.Fin A'
       /\ (A' = 0 \/ Float.DBL_HALF_MIN < A')
       /\ (A' = 0 -> A = 0 /\ Rabs (nth l v1 0 - nth l v2 0) <= 1e-161).
Proof.
  intros Hl HA. unfold Float.langues_distance_body. cbv zeta.
  unfold Float.sub. cbn [Float.neg Float.add].
  replace (nth l v1 0 + - nth l v2 0) with (nth l v1 0 - nth l v2 0) by ring.
  set (d := nth l v1 0 - nth l v2 0).
  pose proof (weight_range l Hl) as Hw.
  set (w := nth l TONGUE_WEIGHTS 0) in *.
  pose proof square_thresholds as [_ Hs].
  pose proof DBL_HALF_MIN_small as [Hpos _].
  pose proof threshold_bounds as [Hlo Hhi].
  (* the square is zero, above the threshold, or infinite *)
  assert (Hsq : forall sq, Float.pow2 (Float.to_double d) = Ok sq ->
            sq = Float.PInf
            \/ (sq = Float.Fin 0 /\ Rabs d <= 1e-161)
            \/ exists S, sq = Float.Fin S /\ Float.DBL_HALF_MIN < S).
  { intros sq. unfold Float.to_double.
    assert (Hsmall : forall u, u * u <= Float.DBL_HALF_MIN ->
              Rabs u <= 1e-161).
    { intros u Hu. pose proof (Rabs_pos u) as Hp.
      assert (Huu : Rabs u * Rabs u <= 1e-161 * 1e-161).
      { replace (Rabs u * Rabs u) with (u * u)
          by (unfold Rabs; destruct (Rcase_abs u); ring).
        lra. }
      apply Rnot_lt_le. intros Hgt. nra. }
    destruct (Rlt_dec Float.DBL_MAX d);
      [cbn [Float.pow2]; intros [= <-]; left; reflexivity |].
    destruct (Rlt_dec d (- Float.DBL_MAX));
      [cbn [Float.pow2]; intros [= <-]; left; reflexivity |].
    destruct (Rle_dec (Rabs d) Float.DBL_HALF_MIN) as [Hflush | Hkeep];
      cbn [Float.pow2].
    - destruct (Rlt_dec Float.DBL_MAX (0 * 0)); [lra |].
      rewrite Rmult_0_l, to_double_0. intros [= <-].
      right; left. split; [reflexivity | lra].
    - destruct (Rlt_dec Float.DBL_MAX (d * d)); [discriminate |].
      destruct (to_double_quantum (d * d) ltac:(nra))
        as [E | [[Hle E] | [Hgt E]]]; rewrite E; intros [= <-].
      + left; reflexivity.
      + right; left. split; [reflexivity | apply Hsmall; exact Hle].
      + right; right. exists (d * d). split; [reflexivity | exact Hgt]. }
  destruct (Float.pow2 (Float.to_double d)) as [sq |] eqn:Esq;
    cbn [bind]; [| discriminate].
  intros [= <-].
  destruct (Hsq sq eq_refl) as [-> | [[-> Hd] | (S & -> & HS)]].
  - left. cbn [Float.mul]. unfold Float.scale_inf.
    destruct (Req_dec_T w 0); [lra |].
    destruct (Rlt_dec 0 w); [reflexivity | lra].
  - cbn [Float.mul]. rewrite Rmult_0_r, to_double_0. cbn [Float.add].
    rewrite Rplus_0_r.
    destruct HA as [-> | HA].
    + right. exists 0. rewrite to_double_0.
      split; [reflexivity | split; [left; reflexivity |]].
      intros _. split; [reflexivity | exact Hd].
    + destruct (to_double_quantum A ltac:(lra)) as [E | [[Hle E] | [Hgt E]]];
        rewrite E; [left; reflexivity | lra |].
      right. exists A. split; [reflexivity | split; [right; exact HA |]].
      intros ->. lra.
  - cbn [Float.mul].
    assert (HwS : Float.DBL_HALF_MIN < w * S) by nra.
    destruct (to_double_quantum (w * S) ltac:(lra))
      as [E | [[Hle E] | [Hgt E]]]; rewrite E; [| lra |].
    + left. destruct HA as [-> | HA]; reflexivity.
    + cbn [Float.add].
      assert (HAS : Float.DBL_HALF_MIN < A + w * S)
        by (destruct HA as [-> | HA]; lra).
      destruct (to_double_quantum (A + w * S) ltac:(lra))
        as [E' | [[Hle' E'] | [Hgt' E']]]; rewrite E';
        [left; reflexivity | lra |].
      right. exists (A + w * S).
      split; [reflexivity | split; [right; exact HAS |]].
      intros E0. lra.
Qed.

Lemma pow2_to_double_nonneg (d : R) (sq : Float.float) :
  Float.pow2 (Float.to_double d) = Ok sq -> double_nonneg sq.
Proof.
  unfold Float.to_double.
  destruct (Rlt_dec Float.DBL_MAX d);
    [cbn [Float.pow2]; intros [= <-]; exact I |].
  destruct (Rlt_dec d (- Float.DBL_MAX));
    [cbn [Float.pow2]; intros [= <-]; exact I |].
  destruct (Rle_dec (Rabs d) Float.DBL_HALF_MIN); cbn [Float.pow2];
    destruct (Rlt_dec Float.DBL_MAX _); try discriminate;
    intros [= <-]; apply to_double_nonneg; nra.
Qed.

Lemma distance_body_inf (v1 v2 : list R) (l : nat) (r : Float.float) :
  (l < 6)%nat ->
  Float.langues_distance_body v1 v2 Float.PInf l = Ok r -> r = Float.PInf.
Proof.
  intros Hl. unfold Float.langues_distance_body. cbv zeta.
  pose proof (weight_range l Hl) as Hw.
  set (w := nth l TONGUE_WEIGHTS 0) in *.
  unfold Float.sub. cbn [Float.neg Float.add].
  destruct (Float.pow2 _) as [sq |] eqn:Esq; cbn [bind]; [| discriminate].
  intros [= <-].
  pose proof (pow2_to_double_nonneg _ _ Esq) as Hsq.
  pose proof (mul_positive_nonneg w sq ltac:(lra) Hsq) as Hm.
  change (Float.add Float.PInf (Float.mul (Float.Fin w) sq) = Float.PInf).
  destruct (Float.mul (Float.Fin w) sq); cbn [double_nonneg] in Hm;
    try contradiction; reflexivity.
Qed.

Lemma distance_loop_inf (v1 v2 : list R) (ls : list nat) (r : Float.float) :
  Forall (fun l => (l < 6)%nat) ls ->
  CPython.for_each (Float.langues_distance_body v1 v2) ls Float.PInf = Ok r ->
  r = Float.PInf.
Proof.
  induction 1 as [| l ls Hl _ IH]; cbn [CPython.for_each].
  - intros [= <-]. reflexivity.
  - destruct (Float.langues_distance_body v1 v2 Float.PInf l) as [r1 |] eqn:E;
      cbn [bind]; [| discriminate].
    rewrite (distance_body_inf _ _ _ _ Hl E). exact IH.
Qed.

Lemma distance_loop_zero (v1 v2 : list R) (ls : list nat) :
  Forall (fun l => (l < 6)%nat) ls ->
  forall A D,
    A = 0 \/ Float.DBL_HALF_MIN < A ->
    CPython.for_each (Float.langues_distance_body v1 v2) ls (Float.Fin A)
    = Ok (Float.Fin D) ->
    (D = 0 \/ Float.DBL_HALF_MIN < D)
    /\ (D = 0 ->
        A = 0
        /\ Forall (fun l => Rabs (nth l v1 0 - nth l v2 0) <= 1e-161) ls).
Proof.
  induction 1 as [| l ls Hl Hls IH]; intros A D HA; cbn [CPython.for_each].
  - intros [= <-]. split; [exact HA |]. intros E. split; [exact E | constructor].
  - destruct (Float.langues_distance_body v1 v2 (Float.Fin A) l) as [r1 |]
      eqn:E; cbn [bind]; [| discriminate].
    destruct (distance_body_shape _ _ _ _ _ Hl HA E)
      as [-> | (A' & -> & HA' & Hzero)].
    + intros Hloop. apply distance_loop_inf in Hloop; [discriminate | exact Hls].
    + intros Hloop. destruct (IH A' D HA' Hloop) as [HD Hback].
      split; [exact HD |]. intros E0.
      destruct (Hback E0) as [EA' Hrest].
      destruct (Hzero EA') as [EA Hl0].
      split; [exact EA | constructor; assumption].
Qed.

Lemma distance_zero_close (a b : HyperspacePoint.t)
    (m : option LanguesMetric.t) :
  Float.langues_distance a b m = Ok (Float.Fin 0) ->
  forall l, (l < 6)%nat -> Rabs (coordinate a l - coordinate b l) <= 1e-161.
Proof.
  unfold Float.langues_distance. cbv zeta.
  destruct (CPython.for_each _ _ _) as [d_sq |] eqn:E; cbn [bind];
    [| discriminate].
  destruct d_sq as [D | | |]; cbn [Float.math_sqrt]; try discriminate.
  destruct (Rlt_dec D 0); [discriminate |].
  intros [= Hsqrt] l Hl.
  destruct (distance_loop_zero _ _ _ range6 0 D (or_introl eq_refl) E)
    as [HD Hback].
  assert (ED : D = 0) by (apply sqrt_eq_0; [lra | exact Hsqrt]).
  destruct (Hback ED) as [_ Hall].
  rewrite Forall_forall in Hall.
  rewrite <- !coordinate_nth by exact Hl.
  apply Hall. apply in_seq. lia.
Qed.

(** *** Points that the distance does not separate *)

Lemma distance_body_same (v1 v2 : list R) (A : R) (l : nat) :
  nth l v1 0 = nth l v2 0 ->
  Float.DBL_HALF_MIN < A <= Float.DBL_MAX ->
  Float.langues_distance_body v1 v2 (Float.Fin A) l = Ok (Float.Fin A).
Proof.
  intros E [Hlo Hhi]. unfold Float.langues_distance_body. cbv zeta.
  rewrite E. unfold Float.sub. cbn [Float.neg Float.add].
  rewrite Rplus_opp_r, to_double_0. cbn [Float.pow2].
  pose proof threshold_bounds.
  destruct (Rlt_dec Float.DBL_MAX (0 * 0)); [lra |].
  rewrite Rmult_0_l, to_double_0. cbn [bind Float.mul].
  rewrite Rmult_0_r, to_double_0. cbn [Float.add].
  rewrite Rplus_0_r, to_double_exact; [reflexivity | |];
    pose proof DBL_HALF_MIN_small; rewrite Rabs_right; lra.
Qed.

Lemma small_square_kept :
  Float.DBL_HALF_MIN < 2e-162 * 2e-162 <= Float.DBL_MAX.
Proof.
  split; [unfold Float.DBL_HALF_MIN; lra |].
  pose proof threshold_bounds. lra.
Qed.

(** The squares of small differences underflow to zero. *)
Lemma langues_distance_underflow :
  HyperspacePoint.mk 1e-200 0 0 0.8 0.1 0.1 <> HyperspacePoint.default
  /\ Float.langues_distance (HyperspacePoint.mk 1e-200 0 0 0.8 0.1 0.1)
       HyperspacePoint.default None
     = Ok (Float.Fin 0)
  /\ Float.langues_distance HyperspacePoint.default
       (HyperspacePoint.mk 1e-162 0 0 0.8 0.1 0.1) None
     = Ok (Float.Fin 0)
  /\ Float.langues_distance (HyperspacePoint.mk 1e-162 0 0 0.8 0.1 0.1)
       (HyperspacePoint.mk 2e-162 0 0 0.8 0.1 0.1) None
     = Ok (Float.Fin 0)
  /\ exists r,
       Float.langues_distance HyperspacePoint.default
         (HyperspacePoint.mk 2e-162 0 0 0.8 0.1 0.1) None
       = Ok (Float.Fin r)
       /\ 0 < r.
Proof.
  set (o := HyperspacePoint.default).
  set (c := HyperspacePoint.mk 2e-162 0 0 0.8 0.1 0.1).
  assert (Hclose : forall p q : R,
            Rabs (p - q) <= 1e-162 ->
            forall l, (l < 6)%nat ->
              Rabs (coordinate (HyperspacePoint.mk p 0 0 0.8 0.1 0.1) l
                    - coordinate (HyperspacePoint.mk q 0 0 0.8 0.1 0.1) l)
              <= 1e-162).
  { intros p q Hpq l Hl.
    each_dim Hl; cbn [coordinate HyperspacePoint.time HyperspacePoint.intent
      HyperspacePoint.policy HyperspacePoint.trust HyperspacePoint.risk
      HyperspacePoint.entropy]; try exact Hpq;
      rewrite Rminus_diag, Rabs_R0; lra. }
  split; [| split; [| split; [| split]]].
  - intros E. apply (f_equal HyperspacePoint.time) in E.
    cbn [HyperspacePoint.time o HyperspacePoint.default] in E. lra.
  - apply distance_close, Hclose. unfold Rabs; destruct (Rcase_abs _); lra.
  - apply distance_close, Hclose. unfold Rabs; destruct (Rcase_abs _); lra.
  - apply distance_close, Hclose. unfold Rabs; destruct (Rcase_abs _); lra.
  - exists (sqrt (2e-162 * 2e-162)).
    pose proof small_square_kept as [Hlo Hhi].
    pose proof DBL_HALF_MIN_small as [Hpos _].
    split; [| apply sqrt_lt_R0; lra].
    rewrite (distance_sym o c None None).
    unfold Float.langues_distance. cbv zeta.
    change (seq 0 6) with (0%nat :: seq 1 5). cbn [CPython.for_each].
    assert (E0 : Float.langues_distance_body (HyperspacePoint.to_vector c)
                   (HyperspacePoint.to_vector o) (Float.Fin 0) 0
                 = Ok (Float.Fin (2e-162 * 2e-162))).
    { unfold Float.langues_distance_body. cbv zeta.
      cbn [nth HyperspacePoint.to_vector c o HyperspacePoint.default
           HyperspacePoint.time TONGUE_WEIGHTS map seq].
      unfold Float.sub. cbn [Float.neg Float.add].
      replace (2e-162 + - 0) with 2e-162 by lra.
      double_normal 2e-162. cbn [Float.pow2].
      destruct (Rlt_dec Float.DBL_MAX (2e-162 * 2e-162)); [lra |].
      rewrite to_double_exact by (rewrite Rabs_right; lra).
      cbn [bind Float.mul]. rewrite pow_O, Rmult_1_l.
      rewrite to_double_exact by (rewrite Rabs_right; lra).
      cbn [Float.add]. rewrite Rplus_0_l.
      rewrite to_double_exact by (rewrite Rabs_right; lra). reflexivity. }
    rewrite E0. cbn [bind seq CPython.for_each].
    repeat (rewrite distance_body_same
              by (reflexivity || (split; assumption));
            cbn [bind]).
    cbn [Float.math_sqrt].
    destruct (Rlt_dec (2e-162 * 2e-162) 0); [lra | reflexivity].
Qed.

(** The distance between the default point and a point at time [1e200]:
    the square of the difference is beyond the largest double. *)
Lemma distance_square_overflows :
  Float.langues_distance (HyperspacePoint.mk 1e200 0 0 0.8 0.1 0.1)
    HyperspacePoint.default None
  = Raise OverflowError.
Proof.
  unfold Float.langues_distance. cbv zeta.
  change (seq 0 6) with (0%nat :: seq 1 5). cbn [CPython.for_each].
  unfold Float.langues_distance_body at 1. cbv zeta.
  cbn [nth HyperspacePoint.to_vector HyperspacePoint.default
       HyperspacePoint.time].
  unfold Float.sub. cbn [Float.neg Float.add].
  replace (1e200 + - 0) with 1e200 by lra.
  double_normal 1e200. cbn [Float.pow2].
  destruct (Rlt_dec Float.DBL_MAX (1e200 * 1e200)) as [_ | Hn];
    [reflexivity |].
  exfalso. apply Hn. unfold Float.DBL_MAX, CPython.DBL_MAX. lra.
Qed.

(** C7 fails as stated, on three counts.  The square of a large difference
    overflows: the distance from the default point to a point at time
    [1e200] raises [OverflowError].  The square of a small difference
    underflows to zero: two points whose time fields differ by [1e-200] are
    at distance [0.0].  And with time fields [0], [1e-162] and [2e-162] the
    two short distances are [0.0] while the long one is positive, against
    the triangle inequality. *)
Lemma langues_distance_is_not_a_metric :
  Float.langues_distance (HyperspacePoint.mk 1e200 0 0 0.8 0.1 0.1)
    HyperspacePoint.default None
  = Raise OverflowError
  /\ HyperspacePoint.mk 1e-200 0 0 0.8 0.1 0.1 <> HyperspacePoint.default
  /\ Float.langues_distance (HyperspacePoint.mk 1e-200 0 0 0.8 0.1 0.1)
       HyperspacePoint.default None
     = Ok (Float.Fin 0)
  /\ Float.langues_distance HyperspacePoint.default
       (HyperspacePoint.mk 1e-162 0 0 0.8 0.1 0.1) None
     = Ok (Float.Fin 0)
  /\ Float.langues_distance (HyperspacePoint.mk 1e-162 0 0 0.8 0.1 0.1)
       (HyperspacePoint.mk 2e-162 0 0 0.8 0.1 0.1) None
     = Ok (Float.Fin 0)
  /\ exists r,
       Float.langues_distance HyperspacePoint.default
         (HyperspacePoint.mk 2e-162 0 0 0.8 0.1 0.1) None
       = Ok (Float.Fin r)
       /\ 0 < r.
Proof.
  split; [exact distance_square_overflows |].
  exact langues_distance_underflow.
Qed.

(** C7, amended.  On doubles [langues_distance] is symmetric, an exception
    included; it is [0.0] from a point to itself, and more generally
    between points that differ by at most [1e-162] in every field; and it
    is [0.0] only between points that differ by at most [1e-161] in every
    field.  No triangle inequality is stated. *)
Theorem langues_distance_on_doubles (a b : HyperspacePoint.t)
    (m m' : option LanguesMetric.t) :
  Float.langues_distance a b m = Float.langues_distance b a m'
  /\ Float.langues_distance a a m = Ok (Float.Fin 0)
  /\ ((forall l, (l < 6)%nat ->
         Rabs (coordinate a l - coordinate b l) <= 1e-162) ->
      Float.langues_distance a b m = Ok (Float.Fin 0))
  /\ (Float.langues_distance a b m = Ok (Float.Fin 0) ->
      forall l, (l < 6)%nat ->
        Rabs (coordinate a l - coordinate b l) <= 1e-161).
Proof.
  split; [apply distance_sym |].
  split; [| split; [apply distance_close | apply distance_zero_close]].
  apply distance_close. intros l _. rewrite Rminus_diag, Rabs_R0. lra.
Qed.

(** ** [compute] on doubles, turn by turn *)

Lemma compute_body_is_step (beta_base clamp_max : R)
    (ideal : option IdealState.t) (x : HyperspacePoint.t) (t : R)
    (a : option (list string)) (L : Float.float) (l : nat) :
  (l < 6)%nat ->
  let m := LanguesMetric.init beta_base clamp_max ideal in
  Float.compute_body m (Float.compute_deviations m x) t a L l
  = double_step beta_base (LanguesMetric.ideal m) x t a L l.
Proof.
  intros Hl m. unfold Float.compute_body, double_step, double_exp_term,
    double_phase_shift, double_shifted_d.
  rewrite skip_is_excluded. destruct (excluded a l); [reflexivity |].
  cbv zeta. rewrite double_deviations_nth by exact Hl.
  unfold m. rewrite betas_nth by exact Hl.
  destruct (Float.math_sin _); cbn [bind]; [| reflexivity].
  destruct (Float.math_exp _); reflexivity.
Qed.

Lemma math_exp_raises (y : Float.float) (e : PyExc) :
  Float.math_exp y = Raise e -> e = OverflowError.
Proof.
  destruct y as [r | | |]; cbn [Float.math_exp]; try discriminate.
  destruct (Rlt_dec _ _); [intros [= <-]; reflexivity | discriminate].
Qed.

Lemma math_sin_raises (y : Float.float) (e : PyExc) :
  Float.math_sin y = Raise e -> e = ValueError.
Proof.
  destruct y as [r | | |]; cbn [Float.math_sin]; try discriminate;
    intros [= <-]; reflexivity.
Qed.

Lemma step_raises (beta_base : R) (ideal : IdealState.t)
    (x : HyperspacePoint.t) (t : R) (a : option (list string))
    (L : Float.float) (l : nat) (e : PyExc) :
  double_step beta_base ideal x t a L l = Raise e ->
  (e = OverflowError /\ exists s, double_phase_shift t l = Ok s)
  \/ (e = ValueError /\ double_phase_shift t l = Raise ValueError).
Proof.
  unfold double_step, double_exp_term.
  destruct (excluded a l); [discriminate |].
  destruct (double_phase_shift t l) as [ps | e'] eqn:Es; cbn [bind].
  - destruct (Float.math_exp _) as [ex | e''] eqn:Ee; cbn [bind];
      [discriminate |].
    intros [= <-]. left. split; [| exists ps; reflexivity].
    apply (math_exp_raises _ _ Ee).
  - intros [= <-]. right.
    pose proof (math_sin_raises _ _ Es) as ->. split; reflexivity.
Qed.

Lemma to_double_bounded (B r : R) :
  0 <= B <= Float.DBL_MAX -> Rabs r <= B ->
  exists u, Float.to_double r = Float.Fin u /\ Rabs u <= B.
Proof.
  intros [HB0 HB] Hr. unfold Float.to_double.
  assert (- B <= r <= B)
    by (unfold Rabs in Hr; destruct (Rcase_abs r); lra).
  destruct (Rlt_dec Float.DBL_MAX r); [lra |].
  destruct (Rlt_dec r (- Float.DBL_MAX)); [lra |].
  destruct (Rle_dec (Rabs r) Float.DBL_HALF_MIN).
  - exists 0. split; [reflexivity | rewrite Rabs_R0; lra].
  - exists r. split; [reflexivity | exact Hr].
Qed.

(** At a time of ordinary size the argument of the sine is finite. *)
Lemma phase_shift_returns (t : R) (l : nat) :
  (l < 6)%nat -> Rabs t <= 1e300 ->
  exists s, double_phase_shift t l = Ok (Float.Fin s).
Proof.
  intros Hl Ht. unfold double_phase_shift. cbn [Float.mul].
  assert (Hw : 1 <= nth l TONGUE_FREQUENCIES 0 <= 2)
    by (each_dim Hl; cbn [nth TONGUE_FREQUENCIES]; lra).
  set (w := nth l TONGUE_FREQUENCIES 0) in *.
  assert (Hwt : Rabs (w * t) <= 2e300).
  { rewrite Rabs_mult, (Rabs_right w) by lra.
    pose proof (Rabs_pos t). nra. }
  assert (Hbig : 3e300 <= Float.DBL_MAX)
    by (unfold Float.DBL_MAX, CPython.DBL_MAX; lra).
  assert (Hphi : 0 <= nth l TONGUE_PHASES 0 <= 7).
  { pose proof PI_bounds.
    each_dim Hl;
      [ rewrite phase_0 | rewrite phase_1 | rewrite phase_2
      | rewrite phase_3 | rewrite phase_4 | rewrite phase_5 ]; lra. }
  set (phi := nth l TONGUE_PHASES 0) in *.
  destruct (to_double_bounded 2e300 (w * t) ltac:(lra) Hwt) as (u & -> & Hu).
  cbn [Float.add].
  assert (Hup : Rabs (u + phi) <= 3e300).
  { apply Rle_trans with (1 := Rabs_triang _ _).
    rewrite (Rabs_right phi) by lra. lra. }
  destruct (to_double_bounded 3e300 (u + phi) ltac:(lra) Hup) as (v & -> & _).
  exists (sin v). reflexivity.
Qed.

(** X19.  On a constructed metric [compute] takes the six dimensions in
    order: a dimension that the tongue list skips leaves the sum as it is;
    in the others it computes [sin (omega_l * t + phi_l)], raising
    [ValueError] when the argument has overflowed to an infinity, then
    [exp (beta_l * (|x_l - mu_l| + 0.1 * sin ...))], raising
    [OverflowError] when that is above the largest double, and adds
    [w_l] times it; when no dimension raises it returns the smaller of the
    sum and [clamp_max].  It raises nothing else, and no [ValueError] at a
    time of at most [1e300] in magnitude. *)
Theorem compute_on_doubles (beta_base clamp_max : R)
    (ideal : option IdealState.t) (x : HyperspacePoint.t) (t : R)
    (active_tongues : option (list string)) :
  let m := LanguesMetric.init beta_base clamp_max ideal in
  let step :=
    double_step beta_base (LanguesMetric.ideal m) x t active_tongues in
  Float.compute m x t active_tongues
  = (L0 <- step (Float.Fin 0) 0%nat ;; L1 <- step L0 1%nat ;;
     L2 <- step L1 2%nat ;; L3 <- step L2 3%nat ;;
     L4 <- step L3 4%nat ;; L5 <- step L4 5%nat ;;
     Ok (Float.min L5 (Float.Fin clamp_max)))
  /\ (forall e, Float.compute m x t active_tongues = Raise e ->
        e = OverflowError \/ e = ValueError)
  /\ (Rabs t <= 1e300 ->
      forall e, Float.compute m x t active_tongues = Raise e ->
        e = OverflowError).
Proof.
  intros m step.
  assert (E : Float.compute m x t active_tongues
              = (L0 <- step (Float.Fin 0) 0%nat ;; L1 <- step L0 1%nat ;;
                 L2 <- step L1 2%nat ;; L3 <- step L2 3%nat ;;
                 L4 <- step L3 4%nat ;; L5 <- step L4 5%nat ;;
                 Ok (Float.min L5 (Float.Fin clamp_max)))).
  { unfold Float.compute. cbv zeta. cbn [CPython.for_each seq].
    unfold m, step.
    rewrite !(compute_body_is_step beta_base clamp_max ideal x t) by lia.
    repeat match goal with
           | |- context [bind (double_step ?b ?i ?p ?u ?f ?L ?l) _] =>
               rewrite (compute_body_is_step b clamp_max ideal p u f _ l)
                 by lia
           end.
    repeat (destruct (double_step _ _ _ _ _ _ _); cbn [bind];
            [| reflexivity];
            try rewrite !(compute_body_is_step beta_base clamp_max ideal x t)
              by lia).
    reflexivity. }
  assert (Hraise : forall e, Float.compute m x t active_tongues = Raise e ->
            exists L l, (l < 6)%nat /\ step L l = Raise e).
  { intros e. rewrite E.
    destruct (step (Float.Fin 0) 0%nat) as [L0 |] eqn:E0; cbn [bind];
      [| intros [= <-]; exists (Float.Fin 0), 0%nat; split; [lia | exact E0]].
    destruct (step L0 1%nat) as [L1 |] eqn:E1; cbn [bind];
      [| intros [= <-]; exists L0, 1%nat; split; [lia | exact E1]].
    destruct (step L1 2%nat) as [L2 |] eqn:E2; cbn [bind];
      [| intros [= <-]; exists L1, 2%nat; split; [lia | exact E2]].
    destruct (step L2 3%nat) as [L3 |] eqn:E3; cbn [bind];
      [| intros [= <-]; exists L2, 3%nat; split; [lia | exact E3]].
    destruct (step L3 4%nat) as [L4 |] eqn:E4; cbn [bind];
      [| intros [= <-]; exists L3, 4%nat; split; [lia | exact E4]].
    destruct (step L4 5%nat) as [L5 |] eqn:E5; cbn [bind];
      [| intros [= <-]; exists L4, 5%nat; split; [lia | exact E5]].
    discriminate. }
  split; [exact E | split].
  - intros e He. destruct (Hraise e He) as (L & l & _ & Hs).
    destruct (step_raises _ _ _ _ _ _ _ _ Hs) as [[-> _] | [-> _]];
      [left | right]; reflexivity.
  - intros Ht e He. destruct (Hraise e He) as (L & l & Hl & Hs).
    destruct (step_raises _ _ _ _ _ _ _ _ Hs) as [[-> _] | [_ Hv]];
      [reflexivity |].
    destruct (phase_shift_returns t l Hl Ht) as (s & Es).
    rewrite Es in Hv. discriminate.
Qed.

(** X9.  On a constructed metric with [beta_base] above [0.1], at any time
    and with any tongue list: if a point deviates from the ideal state at
    least as much as another in every dimension, then whenever [compute]
    returns at both points its cost is at least that of the other. *)
Theorem compute_nondecreasing_in_deviations
    (beta_base clamp_max : R) (ideal : option IdealState.t)
    (x y : HyperspacePoint.t) (t : R)
    (active_tongues : option (list string)) (vx vy : Float.float) :
  0.1 < beta_base ->
  (forall l, (l < 6)%nat ->
     Rabs (coordinate x l
           - ideal_coordinate
               (LanguesMetric.ideal
                  (LanguesMetric.init beta_base clamp_max ideal)) l)
     <= Rabs (coordinate y l
              - ideal_coordinate
                  (LanguesMetric.ideal
                     (LanguesMetric.init beta_base clamp_max ideal)) l)) ->
  Float.compute (LanguesMetric.init beta_base clamp_max ideal) x t
    active_tongues = Ok vx ->
  Float.compute (LanguesMetric.init beta_base clamp_max ideal) y t
    active_tongues = Ok vy ->
  double_le vx vy.
Proof.
  intros Hbase Hdev Ex Ey.
  set (m := LanguesMetric.init beta_base clamp_max ideal) in *.
  assert (Hbeta : forall l, (l < 6)%nat ->
            0 < nth l (LanguesMetric.betas m) 0).
  { intros l Hl. pose proof (init_beta_lower beta_base clamp_max ideal l Hl).
    fold m in H. lra. }
  pose proof (double_compute_mono m x y t active_tongues Hbeta Hdev) as Hmono.
  rewrite Ex, Ey in Hmono. exact Hmono.
Qed.

(** The theorem for the default metric at [t = 0], from the ideal point to
    the point that deviates by 0.5 in trust. *)
Lemma compute_nondecreasing_in_deviations_witness :
  double_le
    (Float.Fin (LanguesMetric.compute LanguesMetric.default ideal_point 0 None))
    (Float.Fin
       (LanguesMetric.compute LanguesMetric.default (bump 3 0.5) 0 None)).
Proof.
  apply (compute_nondecreasing_in_deviations 1 1e6 None ideal_point
           (bump 3 0.5) 0 None).
  - lra.
  - intros l Hl.
    change (LanguesMetric.ideal (LanguesMetric.init 1 1e6 None))
      with IdealState.default.
    replace (coordinate ideal_point l - ideal_coordinate IdealState.default l)
      with 0 by (each_dim Hl; cbn; lra).
    rewrite Rabs_R0. apply Rabs_pos.
  - apply moderate_compute_exact. exact ideal_point_moderate.
  - apply moderate_compute_exact. intros k Hk.
    apply bump_moderate; [lia | lra | exact Hk].
Defined.

(** X12. [build_langues_metric_matrix] returns the 6x6 matrix with the
    tongue weights on the diagonal and zero elsewhere. *)
Theorem matrix_is_diagonal_weights :
  build_langues_metric_matrix = Ok diagonal_weights
  /\ forall i j, (i < 6)%nat -> (j < 6)%nat ->
       nth j (nth i diagonal_weights []) 0
       = if Nat.eqb i j then PHI ^ i else 0.
Proof.
  split; [reflexivity |].
  intros i j Hi Hj. each_dim Hi; each_dim Hj; reflexivity.
Qed.

(** X23.  For the default metric at [t = 0] and no tongue list, on a point
    whose every field equals the ideal one or deviates from it by between
    0.1 and 100, [compute] on doubles raises nothing, and no intermediate
    result leaves the range of doubles: it returns the value of the exact
    formula. *)
Theorem compute_returns_on_moderate_points (x : HyperspacePoint.t) :
  (forall l, (l < 6)%nat ->
     coordinate x l = ideal_coordinate IdealState.default l
     \/ 0.1 <= Rabs (coordinate x l - ideal_coordinate IdealState.default l)
        <= 100) ->
  Float.compute LanguesMetric.default x 0 None
  = Ok (Float.Fin (claimed_compute 1 1e6 IdealState.default x 0 None)).
Proof.
  intros H. rewrite (moderate_compute_exact x H). do 2 f_equal.
  apply (compute_is_claimed 1 1e6 None x 0 None).
Qed.

(** The theorem at the high-deviation point of the demonstration. *)
Lemma compute_returns_on_moderate_points_witness :
  Float.compute LanguesMetric.default attack_point 0 None
  = Ok (Float.Fin (claimed_compute 1 1e6 IdealState.default attack_point 0
                     None)).
Proof.
  apply (compute_returns_on_moderate_points attack_point).
  intros l Hl.
  each_dim Hl; [left; reflexivity | right ..];
    cbn [attack_point coordinate ideal_coordinate
         IdealState.default HyperspacePoint.intent
         HyperspacePoint.policy HyperspacePoint.trust HyperspacePoint.risk
         HyperspacePoint.entropy IdealState.intent IdealState.policy
         IdealState.trust IdealState.risk IdealState.entropy];
    unfold Rabs; destruct (Rcase_abs _); lra.
Defined.

(** ** The distance where no square leaves the range *)

Lemma square_range (d : R) :
  1e-100 <= Rabs d <= 1e100 -> 1e-200 <= d * d <= 1e200.
Proof.
  intros [Hlo Hhi].
  replace (d * d) with (Rabs d * Rabs d)
    by (unfold Rabs; destruct (Rcase_abs d); ring).
  split; nra.
Qed.

Lemma to_double_positive (r : R) :
  1e-200 <= r <= 1e300 -> Float.to_double r = Float.Fin r.
Proof.
  intros [Hlo Hhi]. apply to_double_exact;
    pose proof DBL_MAX_big; pose proof DBL_HALF_MIN_small;
    rewrite Rabs_right; lra.
Qed.

Lemma distance_body_exact (v1 v2 : list R) (A U : R) (l : nat) :
  (l < 6)%nat ->
  nth l v1 0 = nth l v2 0 \/ 1e-100 <= Rabs (nth l v1 0 - nth l v2 0) <= 1e100 ->
  A = 0 \/ 1e-200 <= A -> A <= U -> U + 12e200 <= 1e300 ->
  let A' := langues_distance_body v1 v2 A l in
  Float.langues_distance_body v1 v2 (Float.Fin A) l = Ok (Float.Fin A')
  /\ (A' = 0 \/ 1e-200 <= A') /\ A' <= U + 12e200.
Proof.
  intros Hl Hd HA HU HB. unfold langues_distance_body,
    Float.langues_distance_body. cbv zeta.
  pose proof (weight_range l Hl) as Hw.
  set (w := nth l TONGUE_WEIGHTS 0) in *.
  unfold Float.sub. cbn [Float.neg Float.add].
  replace (nth l v1 0 + - nth l v2 0) with (nth l v1 0 - nth l v2 0) by ring.
  set (d := nth l v1 0 - nth l v2 0) in *.
  replace (d ^ 2) with (d * d) by ring.
  pose proof threshold_bounds as [Hlo Hhi].
  pose proof DBL_MAX_big as Hmax.
  assert (HA0 : 0 <= A) by (destruct HA; lra).
  destruct Hd as [E | Hd].
  - assert (Ed : d = 0) by (unfold d; lra). rewrite Ed, to_double_0.
    cbn [Float.pow2].
    destruct (Rlt_dec Float.DBL_MAX (0 * 0)); [lra |].
    rewrite Rmult_0_l, to_double_0. cbn [bind Float.mul].
    rewrite Rmult_0_r, to_double_0. cbn [Float.add].
    rewrite Rplus_0_r. split; [| split; [exact HA | lra]].
    destruct HA as [-> | HA]; [rewrite to_double_0; reflexivity |].
    rewrite to_double_positive by lra. reflexivity.
  - pose proof (square_range d Hd) as Hsq.
    rewrite to_double_exact
      by (pose proof DBL_HALF_MIN_small; lra).
    cbn [Float.pow2].
    destruct (Rlt_dec Float.DBL_MAX (d * d)); [lra |].
    rewrite to_double_positive by lra. cbn [bind Float.mul].
    assert (HwS : 1e-200 <= w * (d * d) <= 12e200) by nra.
    rewrite to_double_positive by lra. cbn [Float.add].
    rewrite to_double_positive by lra.
    split; [reflexivity | split; [right |]]; lra.
Qed.

Lemma distance_loop_exact (v1 v2 : list R) (ls : list nat) :
  Forall (fun l => (l < 6)%nat) ls ->
  Forall (fun l => nth l v1 0 = nth l v2 0
                   \/ 1e-100 <= Rabs (nth l v1 0 - nth l v2 0) <= 1e100) ls ->
  forall A U,
    A = 0 \/ 1e-200 <= A -> A <= U ->
    U + INR (List.length ls) * 12e200 <= 1e300 ->
    CPython.for_each (Float.langues_distance_body v1 v2) ls (Float.Fin A)
    = Ok (Float.Fin (fold_left (langues_distance_body v1 v2) ls A))
    /\ 0 <= fold_left (langues_distance_body v1 v2) ls A.
Proof.
  induction 1 as [| l ls Hl _ IH]; intros Hd A U HA HU HB.
  - split; [reflexivity | destruct HA; cbn [fold_left]; lra].
  - inversion Hd as [| ? ? Hdl Hdls]; subst.
    cbn [List.length] in HB. rewrite S_INR in HB.
    assert (0 <= INR (List.length ls)) by apply pos_INR.
    destruct (distance_body_exact v1 v2 A U l Hl Hdl HA HU ltac:(nra))
      as (E & HA' & HU').
    cbn [CPython.for_each fold_left]. rewrite E. cbn [bind].
    apply (IH Hdls _ (U + 12e200) HA' HU'). lra.
Qed.

(** X24.  Between two points whose fields are pairwise equal or differ by
    between [1e-100] and [1e100], no square underflows or overflows:
    [langues_distance] returns the square root of the sum of the weighted
    squares of the differences, the weight of dimension [l] being the
    [l]-th power of the golden ratio. *)
Theorem langues_distance_on_moderate_points (x1 x2 : HyperspacePoint.t)
    (metric : option LanguesMetric.t) :
  (forall l, (l < 6)%nat ->
     coordinate x1 l = coordinate x2 l
     \/ 1e-100 <= Rabs (coordinate x1 l - coordinate x2 l) <= 1e100) ->
  Float.langues_distance x1 x2 metric
  = Ok (Float.Fin
          (sqrt (sum_over
                   (fun l => PHI ^ l * (coordinate x1 l - coordinate x2 l) ^ 2)
                   (seq 0 6)))).
Proof.
  intros H. unfold Float.langues_distance. cbv zeta.
  destruct (distance_loop_exact (HyperspacePoint.to_vector x1)
              (HyperspacePoint.to_vector x2) (seq 0 6) range6) with
    (A := 0) (U := 0) as [E Hpos].
  - eapply Forall_impl; [| apply range6]. intros l Hl. cbv beta.
    rewrite !coordinate_nth by exact Hl. apply H, Hl.
  - left. reflexivity.
  - lra.
  - cbn [List.length seq]. rewrite INR_IZR_INZ. cbn [Z.of_nat Pos.of_succ_nat Pos.succ]. lra.
  - rewrite E. cbn [bind Float.math_sqrt].
    destruct (Rlt_dec _ 0); [lra |]. do 3 f_equal.
    cbn [fold_left seq sum_over fold_right]. unfold langues_distance_body.
    cbv zeta.
    cbn [nth HyperspacePoint.to_vector TONGUE_WEIGHTS map seq coordinate].
    ring.
Qed.

(** The theorem between the default point and the high-deviation point of
    the demonstration. *)
Lemma langues_distance_on_moderate_points_witness :
  Float.langues_distance HyperspacePoint.default attack_point None
  = Ok (Float.Fin
          (sqrt (sum_over
                   (fun l => PHI ^ l
                             * (coordinate HyperspacePoint.default l
                                - coordinate attack_point l) ^ 2)
                   (seq 0 6)))).
Proof.
  apply (langues_distance_on_moderate_points HyperspacePoint.default
           attack_point None).
  intros l Hl.
  each_dim Hl; [left; reflexivity | right ..];
    cbn [attack_point coordinate HyperspacePoint.default
         HyperspacePoint.intent HyperspacePoint.policy HyperspacePoint.trust
         HyperspacePoint.risk HyperspacePoint.entropy];
    unfold Rabs; destruct (Rcase_abs _); lra.
Defined.
